(** * FilePipelineStorage: a shallow embedding of
      graphrag/index/storage/file_pipeline_storage.py

    The Python module is embedded as executable Gallina definitions:
    - Python [str] values are sequences of Unicode code points, [bytes]
      values are sequences of octets;
    - [pathlib.Path] (POSIX flavour) is a record of a root and a list of
      segments, with [parent], [name] and the [/] operator;
    - the local file system is a finite map from resolved locations to
      nodes, the remote share is a record of server behaviours;
    - effects (file system, SMB sessions, [print], the progress callback)
      are threaded through a state-and-exception monad;
    - the generator [find] is a state machine advanced by [find_next]. *)

From Stdlib Require Import ZArith Lia Ascii String DecimalString.
From stdpp Require Import base option list gmap.

Local Open Scope Z_scope.
Local Open Scope list_scope.

(** ** Python strings and bytes *)

(** A Python [str]: the sequence of its code points. *)
Abbreviation str := (list N).

(** A Python [bytes]: the sequence of its octets. *)
Abbreviation bytes := (list N).

(** An ASCII literal as a Python [str]. *)
Definition py (s : string) : str :=
  map N_of_ascii (list_ascii_of_string s).

Definition str_eqb (a b : str) : bool := bool_decide (a = b).

(** [x or default] for an optional string: [None] and [""] are falsy. *)
Definition str_or (x : option str) (default : str) : str :=
  match x with
  | Some (c :: s) => c :: s
  | _ => default
  end.

(** [s.replace(old, new)] for a one-character [old]. *)
Definition replace_char (old : N) (new : str) (s : str) : str :=
  flat_map (fun c => if N.eqb c old then new else [c]) s.

(** [str.lower] on the ASCII letters; the keys it is compared with are
    ASCII words. *)
Definition lower_char (c : N) : N :=
  if (65 <=? c)%N && (c <=? 90)%N then (c + 32)%N else c.

Definition lower (s : str) : str := map lower_char s.

(** [str(n)] for an integer. *)
Definition str_of_int (n : Z) : str :=
  py (NilEmpty.string_of_int (Z.to_int n)).

Definition SLASH : N := 47.
Definition DOT : N := 46.
Definition SPACE : N := 32.
Definition IDEOGRAPHIC_SPACE : N := 12288.
Definition LF : N := 10.
Definition CR : N := 13.

(** ** pathlib (POSIX flavour) *)

Module pathlib.

(** The root of a path: [""], ["/"] or ["//"]. *)
Inductive root := NoRoot | Root1 | Root2.

Record Path := mkPath { path_root : root; parts : list str }.

#[global] Instance root_eq_dec : EqDecision root.
Proof. solve_decision. Defined.

#[global] Instance Path_eq_dec : EqDecision Path.
Proof. solve_decision. Defined.

(** [s.split(sep)] *)
Fixpoint split_on (sep : N) (s : str) : list str :=
  match s with
  | [] => [[]]
  | c :: s' =>
      if N.eqb c sep then [] :: split_on sep s'
      else match split_on sep s' with
           | w :: ws => (c :: w) :: ws
           | [] => [[c]]
           end
  end.

(** The root of a POSIX path string: exactly two leading slashes are
    kept as ["//"], one or three and more collapse to ["/"]. *)
Definition splitroot (s : str) : root :=
  match s with
  | a :: b :: c :: _ =>
      if N.eqb a SLASH then
        if N.eqb b SLASH then (if N.eqb c SLASH then Root1 else Root2)
        else Root1
      else NoRoot
  | [a; b] =>
      if N.eqb a SLASH then (if N.eqb b SLASH then Root2 else Root1)
      else NoRoot
  | [a] => if N.eqb a SLASH then Root1 else NoRoot
  | [] => NoRoot
  end.

Definition is_segment (w : str) : bool :=
  negb (str_eqb w []) && negb (str_eqb w [DOT]).

(** [Path(s)]: empty and ["."] segments are dropped, [".."] is kept. *)
Definition of_str (s : str) : Path :=
  mkPath (splitroot s) (filter (fun w => is_segment w = true) (split_on SLASH s)).

Definition is_absolute (p : Path) : bool :=
  match path_root p with NoRoot => false | _ => true end.

(** [p.parent]: a path without segments is its own parent. *)
Definition parent (p : Path) : Path :=
  mkPath (path_root p) (removelast (parts p)).

(** [p.name]: the last segment, [""] when there is none. *)
Definition name (p : Path) : str := List.last (parts p) [].

(** [p / q]: an absolute right operand replaces the left one. *)
Definition truediv (p q : Path) : Path :=
  if is_absolute q then q
  else mkPath (path_root p) (parts p ++ parts q).

Definition join (sep : str) (ws : list str) : str :=
  match ws with
  | [] => []
  | w :: ws' => w ++ flat_map (fun v => sep ++ v) ws'
  end.

Definition root_str (r : root) : str :=
  match r with
  | NoRoot => []
  | Root1 => [SLASH]
  | Root2 => [SLASH; SLASH]
  end.

(** [str(p)] *)
Definition to_str (p : Path) : str :=
  match path_root p, parts p with
  | NoRoot, [] => [DOT]
  | r, ps => root_str r ++ join [SLASH] ps
  end.

End pathlib.

Import pathlib.

Infix "</>" := truediv (at level 40, left associativity).

(** [join_path(file_path, file_name)] *)
Definition join_path (file_path file_name : str) : Path :=
  of_str file_path </> parent (of_str file_name) </> of_str (name (of_str file_name)).

(** Lexical resolution of a list of segments: [".."] removes the segment
    before it, and stays at the top when there is none (as [/..] is [/]). *)
Definition DOTDOT : str := [DOT; DOT].

Definition step (cur : list str) (seg : str) : list str :=
  if str_eqb seg DOTDOT then removelast cur else cur ++ [seg].

Definition resolve_from (cur : list str) (segs : list str) : list str :=
  fold_left step segs cur.

(** The location a path denotes for a process whose working directory is
    [cwd] (symbolic links are not modelled). *)
Definition locate (cwd : list str) (p : Path) : list str :=
  resolve_from (if is_absolute p then [] else cwd) (parts p).

(** [inside root loc]: the location [loc] is [root] or lies below it. *)
Definition inside (root loc : list str) : Prop := root `prefix_of` loc.

(** ** Exceptions, values and the world *)

(** A raised exception: its class name and [str(e)]. All the classes
    raised in this module derive from [Exception]. *)
Record exn := mkExn { exc_class : str; exc_msg : str }.

Inductive result (A : Type) :=
| Ok (a : A)
| Raise (e : exn).
Arguments Ok {A} a.
Arguments Raise {A} e.

(** The values handed to [set] and returned by [get]. [VOther] stands
    for any object that is neither [bytes], [str] nor [None]. *)
Inductive value :=
| VBytes (b : bytes)
| VStr (s : str)
| VNone
| VOther.

#[global] Instance value_eq_dec : EqDecision value.
Proof. solve_decision. Defined.

(** [datashaper.Progress] *)
Record Progress := mkProgress {
  total_items : Z;
  completed_items : Z;
  description : str
}.

(** A node of the local file system. *)
Inductive node :=
| File (content : bytes)
| Dir.

(** [smb.SMBConnection.SMBConnection(username, password, my_name,
    remote_name, use_ntlm_v2=..., is_direct_tcp=...)] *)
Record SMBConnection := mkSMBConnection {
  username : option str;
  password : option str;
  my_name : str;
  remote_name : str;
  use_ntlm_v2 : bool;
  is_direct_tcp : bool
}.

(** An entry returned by [listPath]. *)
Record SharedFile := mkSharedFile { filename : str }.

(** What the process does to the outside, in order: the calls made on
    an SMB connection and the calls of the progress reporter. *)
Inductive event :=
| EvConnect (conn : SMBConnection) (ip : option str) (port : Z)
| EvListPath (conn : SMBConnection) (share path : option str) (pattern : str)
| EvRetrieveFile (conn : SMBConnection) (service path : str)
| EvClose (conn : SMBConnection)
| EvProgress (status : Progress).

Record World := mkWorld {
  cwd : list str;
  nodes : gmap (list str) node;
  open_sessions : nat;
  stdout : list str;
  trace : list event
}.

(** State and exception monad over the world. *)
Definition M (A : Type) : Type := World -> result A * World.

Definition ret {A} (a : A) : M A := fun w => (Ok a, w).

Definition raise {A} (e : exn) : M A := fun w => (Raise e, w).

Definition bind {A B} (m : M A) (k : A -> M B) : M B :=
  fun w => match m w with
           | (Ok a, w') => k a w'
           | (Raise e, w') => (Raise e, w')
           end.

Definition lift {A} (r : result A) : M A := fun w => (r, w).

Declare Scope py_scope.
Delimit Scope py_scope with py.
Notation "'let*' x ':=' m 'in' k" := (bind m (fun x => k))
  (at level 10, x pattern, m at level 200, k at level 200) : py_scope.
Notation "m ;; k" := (bind m (fun _ => k))
  (at level 100, k at level 200, right associativity) : py_scope.
Local Open Scope py_scope.

Definition emit (e : event) : M unit :=
  fun w => (Ok tt, mkWorld (cwd w) (nodes w) (open_sessions w) (stdout w) (trace w ++ [e])).

(** [print(line)] *)
Definition print (line : str) : M unit :=
  fun w => (Ok tt, mkWorld (cwd w) (nodes w) (open_sessions w) (stdout w ++ [line]) (trace w)).

Definition set_nodes (f : gmap (list str) node -> gmap (list str) node) : M unit :=
  fun w => (Ok tt, mkWorld (cwd w) (f (nodes w)) (open_sessions w) (stdout w) (trace w)).

Definition set_sessions (f : nat -> nat) : M unit :=
  fun w => (Ok tt, mkWorld (cwd w) (nodes w) (f (open_sessions w)) (stdout w) (trace w)).

Definition ask : M World := fun w => (Ok w, w).

(** ** The libraries the module calls *)

(** A text codec of Python's registry. *)
Record Codec := mkCodec {
  encode : str -> result bytes;
  decode : bytes -> result str
}.

(** A paragraph of a word-processor document. *)
Record Paragraph := mkParagraph { par_text : str }.

(** A shape of a slide, as [get_text_from_powerpoint] reads it. *)
Record Shape := mkShape { has_text_frame : bool; shape_text : str }.

(** A worksheet: its name and its rows of cells; a cell is [None] when
    empty and [Some (str(cell.value))] otherwise. *)
Record Worksheet := mkWorksheet {
  sheet_name : str;
  rows : list (list (option str))
}.

(** Everything outside the module: the host name, the codec registry,
    the SMB server and the document parsers. *)
Record Env := mkEnv {
  uname_node : str;
  codecs_lookup : str -> option Codec;
  (** [conn.connect(ip, port)]: [Some e] when it raises. The returned
      flag is ignored by the callers. *)
  smb_connect : SMBConnection -> option str -> Z -> option exn;
  smb_listPath : SMBConnection -> option str -> option str -> str -> result (list SharedFile);
  smb_retrieveFile : SMBConnection -> str -> str -> result bytes;
  (** [docx.Document(file).paragraphs] *)
  docx_Document : bytes -> result (list Paragraph);
  (** [pptx.Presentation(file).slides], each with its [shapes] *)
  pptx_Presentation : bytes -> result (list (list Shape));
  (** [openpyxl.load_workbook(file)], sheets in [sheetnames] order *)
  openpyxl_load_workbook : bytes -> result (list Worksheet);
  (** what [pdfminer]'s [extract_text_to_fp(file, output)] leaves in
      [output] *)
  pdfminer_extract_text_to_fp : bytes -> result str
}.

(** *** UTF-8, the codec of [bytes.decode()] and the default encoding *)

Module utf_8.

Definition UnicodeEncodeError : exn :=
  mkExn (py "UnicodeEncodeError") (py "'utf-8' codec can't encode character").
Definition UnicodeDecodeError : exn :=
  mkExn (py "UnicodeDecodeError") (py "'utf-8' codec can't decode byte").

Local Open Scope N_scope.

Definition encode_char (c : N) : option bytes :=
  if c <? 128 then Some [c]
  else if c <? 2048 then Some [192 + c / 64; 128 + c mod 64]
  else if c <? 65536 then
    if (55296 <=? c) && (c <=? 57343) then None
    else Some [224 + c / 4096; 128 + (c / 64) mod 64; 128 + c mod 64]
  else if c <? 1114112 then
    Some [240 + c / 262144; 128 + (c / 4096) mod 64;
          128 + (c / 64) mod 64; 128 + c mod 64]
  else None.

Fixpoint encode_chars (s : str) : option bytes :=
  match s with
  | [] => Some []
  | c :: s' =>
      match encode_char c, encode_chars s' with
      | Some b, Some bs => Some (b ++ bs)
      | _, _ => None
      end
  end.

Definition is_cont (b : N) : bool := (128 <=? b) && (b <? 192).

Fixpoint decode_bytes (bs : bytes) : option str :=
  match bs with
  | [] => Some []
  | b0 :: r0 =>
      if b0 <? 128 then option_map (cons b0) (decode_bytes r0)
      else if b0 <? 194 then None
      else if b0 <? 224 then
        match r0 with
        | b1 :: r1 =>
            if is_cont b1
            then option_map (cons ((b0 - 192) * 64 + (b1 - 128))) (decode_bytes r1)
            else None
        | _ => None
        end
      else if b0 <? 240 then
        match r0 with
        | b1 :: b2 :: r2 =>
            let c := (b0 - 224) * 4096 + (b1 - 128) * 64 + (b2 - 128) in
            if is_cont b1 && is_cont b2 && (2048 <=? c)
               && negb ((55296 <=? c) && (c <=? 57343))
            then option_map (cons c) (decode_bytes r2)
            else None
        | _ => None
        end
      else if b0 <? 245 then
        match r0 with
        | b1 :: b2 :: b3 :: r3 =>
            let c := (b0 - 240) * 262144 + (b1 - 128) * 4096
                     + (b2 - 128) * 64 + (b3 - 128) in
            if is_cont b1 && is_cont b2 && is_cont b3
               && (65536 <=? c) && (c <? 1114112)
            then option_map (cons c) (decode_bytes r3)
            else None
        | _ => None
        end
      else None
  end.

Definition codec : Codec :=
  mkCodec
    (fun s => match encode_chars s with Some b => Ok b | None => Raise UnicodeEncodeError end)
    (fun b => match decode_bytes b with Some s => Ok s | None => Raise UnicodeDecodeError end).

End utf_8.

(** *** Newline handling of text files ([newline=None]) *)

(** [os.linesep] on POSIX. *)
Definition linesep : str := [LF].

(** On writing, each ["\n"] becomes [os.linesep]. *)
Definition write_newlines (s : str) : str := replace_char LF linesep s.

(** On reading, ["\r\n"] and a lone ["\r"] become ["\n"]. *)
Fixpoint universal_newlines (s : str) : str :=
  match s with
  | [] => []
  | c :: s' =>
      if N.eqb c CR then
        LF :: match s' with
              | d :: s'' =>
                  if N.eqb d LF then universal_newlines s''
                  else universal_newlines s'
              | [] => []
              end
      else c :: universal_newlines s'
  end.

(** ** The local file system *)

(** [strip_prefix pre l]: what follows [pre] in [l], if [l] starts with
    [pre]. *)
Fixpoint strip_prefix (pre l : list str) : option (list str) :=
  match pre, l with
  | [], _ => Some l
  | p :: pre', x :: l' => if str_eqb p x then strip_prefix pre' l' else None
  | _ :: _, [] => None
  end.

Definition mkError (cls : string) (msg : str) : exn := mkExn (py cls) msg.

(** The root directory always exists. *)
Definition lookup_node (ns : gmap (list str) node) (loc : list str) : option node :=
  if bool_decide (loc = []) then Some Dir else ns !! loc.

(** Path lookup by the kernel: every directory walked through has to
    exist; the last segment may be missing. A name that holds a NUL
    character, which every system call refuses, is outside the model. *)
Fixpoint walk (ns : gmap (list str) node) (cur : list str) (segs : list str)
  : option (list str) :=
  match segs with
  | [] => Some cur
  | seg :: rest =>
      match lookup_node ns cur with
      | Some Dir => walk ns (step cur seg) rest
      | _ => None
      end
  end.

Definition namei (w : World) (p : Path) : option (list str) :=
  walk (nodes w) (if is_absolute p then [] else cwd w) (parts p).

(** The error class of a walk that fails: a regular file stands where a
    directory is walked through, or a directory on the way is missing. *)
Fixpoint walk_error (ns : gmap (list str) node) (cur : list str) (segs : list str)
  : string :=
  match segs with
  | [] => "FileNotFoundError"%string
  | seg :: rest =>
      match lookup_node ns cur with
      | Some Dir => walk_error ns (step cur seg) rest
      | Some (File _) => "NotADirectoryError"%string
      | None => "FileNotFoundError"%string
      end
  end.

Definition namei_error (w : World) (p : Path) : string :=
  walk_error (nodes w) (if is_absolute p then [] else cwd w) (parts p).

(** [os.path.exists(p)] *)
Definition ospath_exists (p : Path) : M bool :=
  fun w => (Ok match namei w p with
               | Some loc => bool_decide (is_Some (lookup_node (nodes w) loc))
               | None => false
               end, w).

(** [os.path.exists(s)] for a string: the empty string names nothing,
    and a string that ends with a slash or with a ["."] component names
    a directory or nothing. *)
Definition names_directory (s : str) : bool :=
  match List.last (split_on SLASH s) [] with
  | [] => true
  | w => str_eqb w [DOT]
  end.

Definition ospath_exists_str (s : str) : M bool :=
  fun w => (Ok match s, namei w (of_str s) with
               | [], _ => false
               | _, Some loc =>
                   match lookup_node (nodes w) loc with
                   | Some Dir => true
                   | Some (File _) => negb (names_directory s)
                   | None => false
                   end
               | _, None => false
               end, w).

(** [os.remove(p)] *)
Definition os_remove (p : Path) : M unit :=
  let* w := ask in
  match namei w p with
  | Some loc =>
      match lookup_node (nodes w) loc with
      | Some (File _) => set_nodes (base.delete loc)
      | Some Dir => raise (mkError "IsADirectoryError" (to_str p))
      | None => raise (mkError "FileNotFoundError" (to_str p))
      end
  | None => raise (mkError (namei_error w p) (to_str p))
  end.

(** [Path(p).mkdir(parents=True, exist_ok=True)] *)
Fixpoint mkdirs (ns : gmap (list str) node) (cur : list str) (segs : list str)
  : option (gmap (list str) node) :=
  match segs with
  | [] => Some ns
  | seg :: rest =>
      let next := step cur seg in
      match lookup_node ns next with
      | Some Dir => mkdirs ns next rest
      | Some (File _) => None
      | None => mkdirs (<[next := Dir]> ns) next rest
      end
  end.

(** The error class when [mkdirs] fails: the path itself is a regular
    file, or a regular file stands on the way. *)
Fixpoint mkdirs_error (ns : gmap (list str) node) (cur : list str) (segs : list str)
  : string :=
  match segs with
  | [] => "FileExistsError"%string
  | seg :: rest =>
      let next := step cur seg in
      match lookup_node ns next with
      | Some Dir => mkdirs_error ns next rest
      | Some (File _) =>
          match rest with
          | [] => "FileExistsError"%string
          | _ :: _ => "NotADirectoryError"%string
          end
      | None => mkdirs_error (<[next := Dir]> ns) next rest
      end
  end.

Definition Path_mkdir (p : Path) : M unit :=
  let* w := ask in
  match lookup_node (nodes w) (if is_absolute p then [] else cwd w) with
  | Some Dir =>
      match mkdirs (nodes w) (if is_absolute p then [] else cwd w) (parts p) with
      | Some ns => set_nodes (fun _ => ns)
      | None =>
          raise (mkError
                   (mkdirs_error (nodes w) (if is_absolute p then [] else cwd w) (parts p))
                   (to_str p))
      end
  | _ => raise (mkError "FileNotFoundError" (to_str p))
  end.

Inductive mode := mode_r | mode_rb | mode_w | mode_wb.

(** An open file: where it is and, in text mode, its codec. *)
Record handle := mkHandle { h_loc : list str; h_codec : option Codec }.

Section Files.

Variable env : Env.

(** The text layer of [open]: [None] in binary mode. *)
Definition text_layer (m : mode) (encoding : option str) (default : str)
  : M (option Codec) :=
  match m with
  | mode_rb | mode_wb => ret None
  | mode_r | mode_w =>
      let enc := match encoding with Some e => e | None => default end in
      match codecs_lookup env enc with
      | Some c => ret (Some c)
      | None => raise (mkError "LookupError" enc)
      end
  end.

(** [aiofiles.open(p, mode, encoding=encoding)]: the file is opened
    (and, on writing, created or truncated) before the codec is
    looked up. *)
Definition open_ (p : Path) (m : mode) (encoding : option str) : M handle :=
  let* w := ask in
  match namei w p with
  | None => raise (mkError (namei_error w p) (to_str p))
  | Some loc =>
      match m, lookup_node (nodes w) loc with
      | _, Some Dir => raise (mkError "IsADirectoryError" (to_str p))
      | (mode_r | mode_rb), None => raise (mkError "FileNotFoundError" (to_str p))
      | (mode_r | mode_rb), Some (File _) =>
          let* c := text_layer m encoding (py "utf-8") in
          ret (mkHandle loc c)
      | (mode_w | mode_wb), _ =>
          set_nodes (<[loc := File []]>) ;;
          let* c := text_layer m encoding (py "utf-8") in
          ret (mkHandle loc c)
      end
  end.

(** [f.read()] *)
Definition read (f : handle) : M value :=
  let* w := ask in
  match nodes w !! h_loc f with
  | Some (File content) =>
      match h_codec f with
      | None => ret (VBytes content)
      | Some c =>
          match decode c content with
          | Ok s => ret (VStr (universal_newlines s))
          | Raise e => raise e
          end
      end
  | _ => raise (mkError "OSError" [])
  end.

(** [f.write(v)], followed by the close of the [with] block. *)
Definition write (f : handle) (v : value) : M unit :=
  match h_codec f, v with
  | None, VBytes b => set_nodes (<[h_loc f := File b]>)
  | None, _ => raise (mkError "TypeError" (py "a bytes-like object is required"))
  | Some c, VStr s =>
      match encode c (write_newlines s) with
      | Ok b => set_nodes (<[h_loc f := File b]>)
      | Raise e => raise e
      end
  | Some c, _ => raise (mkError "TypeError" (py "write() argument must be str"))
  end.

End Files.

(** ** The SMB connection *)

Section SMB.

Variable env : Env.

(** [conn.connect(ip, port)] *)
Definition SMB_connect (conn : SMBConnection) (ip : option str) (port : Z) : M unit :=
  emit (EvConnect conn ip port) ;;
  match smb_connect env conn ip port with
  | Some e => raise e
  | None => set_sessions S
  end.

(** [conn.listPath(share, path, pattern=pattern)] *)
Definition SMB_listPath (conn : SMBConnection) (share path : option str) (pattern : str)
  : M (list SharedFile) :=
  emit (EvListPath conn share path pattern) ;;
  lift (smb_listPath env conn share path pattern).

(** [conn.retrieveFile(service, path, file)]: the bytes written to [file] *)
Definition SMB_retrieveFile (conn : SMBConnection) (service path : str) : M bytes :=
  emit (EvRetrieveFile conn service path) ;;
  lift (smb_retrieveFile env conn service path).

(** [conn.close()] *)
Definition SMB_close (conn : SMBConnection) : M unit :=
  emit (EvClose conn) ;;
  set_sessions Nat.pred.

End SMB.

(** ** Names *)

(** The names bound at module level, by the imports and the definitions. *)
Definition module_globals : list str :=
  map py ["logging"; "os"; "re"; "shutil"; "Iterator"; "Path"; "Any"; "cast";
          "aiofiles"; "remove"; "exists"; "Progress"; "ProgressReporter";
          "PipelineStorage"; "requests"; "platform"; "SMBConnection";
          "docx"; "openpyxl"; "pptx"; "io"; "log"; "FilePipelineStorage";
          "join_path"; "create_file_storage"; "_create_progress_status"]%string.

(** The names bound in the body of [class FilePipelineStorage]. They are
    attributes of the class: a function body does not see them as bare
    names. *)
Definition class_namespace : list str :=
  map py ["__init__"; "get_text_from_binary"; "get_text_from_pdf";
          "get_text_from_powerpoint"; "get_text_from_word";
          "get_text_from_excel"; "func_dict"; "find"; "get"; "getText";
          "_read_file"; "set"; "has"; "delete"; "clear"; "child"]%string.

(** Loading a bare name inside a function that has no such local: the
    module globals are searched (no builtin has one of the names looked
    up below); an unbound name raises [NameError]. *)
Definition load_global (name : string) : result unit :=
  if bool_decide (py name ∈ module_globals) then Ok tt
  else Raise (mkError "NameError" (py "name '" ++ py name ++ py "' is not defined")).

(** ** os.path.splitext *)

Fixpoint rfind_from (c : N) (s : str) (i last : Z) : Z :=
  match s with
  | [] => last
  | d :: s' => rfind_from c s' (i + 1) (if N.eqb d c then i else last)
  end.

(** [s.rfind(c)] *)
Definition rfind (c : N) (s : str) : Z := rfind_from c s 0 (-1).

(** [s[i:j]] for [0 <= i] *)
Definition slice (s : str) (i j : Z) : str :=
  take (Z.to_nat (j - i)) (drop (Z.to_nat i) s).

(** [os.path.splitext(p)]: the extension starts at the last dot of the
    last component, unless only dots come before it there. *)
Definition splitext (p : str) : str * str :=
  let sepIndex := rfind SLASH p in
  let dotIndex := rfind DOT p in
  if sepIndex <? dotIndex then
    if forallb (N.eqb DOT) (slice p (sepIndex + 1) dotIndex) then (p, [])
    else (take (Z.to_nat dotIndex) p, drop (Z.to_nat dotIndex) p)
  else (p, []).

(** [f"{x}"] for an optional string. *)
Definition fmt_opt (x : option str) : str :=
  match x with Some s => s | None => py "None" end.

(** [_create_progress_status(num_loaded, num_filtered, num_total)] *)
Definition _create_progress_status (num_loaded num_filtered num_total : Z) : Progress :=
  mkProgress num_total (num_loaded + num_filtered)
    (str_of_int num_loaded ++ py " files loaded (" ++ str_of_int num_filtered
     ++ py " filtered)").

(** [bool(x)] for a [bool | None] argument. *)
Definition truthy (b : option bool) : bool :=
  match b with Some true => true | _ => false end.

(** ** class FilePipelineStorage *)

Module FilePipelineStorage.

Record t := mk { _root_dir : str; _encoding : str }.

(** The arguments of [find] after [self]. [progress] tells whether a
    reporter is supplied; calling it is recorded as [EvProgress]. *)
Record FindArgs := mkFindArgs {
  file_pattern : str;
  base_dir : option str;
  progress : bool;
  file_filter : option (list (str * str));
  max_count : Z;
  userid : option str;
  password : option str;
  share_directory : option str;
  file_server : option str;
  file_path : option str
}.

(** The generator object returned by [find]: not started, suspended at
    the [yield] with the files still to come and the counters, or
    finished. *)
Inductive FindGen :=
| Created (self : t) (args : FindArgs)
| Suspended (args : FindArgs) (rest : list str) (num_loaded num_filtered num_total : Z)
| Finished.

Definition item : Type := str * list (str * str).

Section Methods.

Variable env : Env.

(** [FilePipelineStorage(root_dir, encoding)] *)
Definition __init__ (root_dir encoding : option str) : M t :=
  let self := mk (str_or root_dir []) (str_or encoding (py "utf-8")) in
  Path_mkdir (of_str (_root_dir self)) ;;
  ret self.

(** *** The extraction rules *)

Definition get_text_from_binary (file : bytes) : result str :=
  decode utf_8.codec file.

(** [extract_text_to_fp] is bound nowhere in the module: loading
    the name raises before anything is extracted. *)
Definition get_text_from_pdf (file : bytes) : result str :=
  match load_global "extract_text_to_fp" with
  | Raise e => Raise e
  | Ok _ => pdfminer_extract_text_to_fp env file
  end.

Definition get_text_from_powerpoint (file : bytes) : result str :=
  match pptx_Presentation env file with
  | Raise e => Raise e
  | Ok slides =>
      Ok (fold_left
            (fun output sld =>
               fold_left
                 (fun output shp =>
                    if has_text_frame shp then
                      output ++ replace_char IDEOGRAPHIC_SPACE []
                                  (replace_char SPACE []
                                     (replace_char LF []
                                        (replace_char LF [] (shape_text shp))))
                    else output)
                 sld output)
            slides [])
  end.

Definition get_text_from_word (file : bytes) : result str :=
  match docx_Document env file with
  | Raise e => Raise e
  | Ok paragraphs =>
      let text_list := map (fun par => par_text par) paragraphs in
      let text := concat text_list in
      let output := replace_char IDEOGRAPHIC_SPACE [] (replace_char SPACE [] text) in
      Ok output
  end.

Definition get_text_from_excel (file : bytes) : result str :=
  match openpyxl_load_workbook env file with
  | Raise e => Raise e
  | Ok book =>
      Ok (fold_left
            (fun output_text sheet =>
               let output_text := output_text ++ sheet_name sheet ++ [LF] in
               let output_text :=
                 fold_left
                   (fun output_text cells =>
                      fold_left
                        (fun output_text cell =>
                           match cell with
                           | None => output_text
                           | Some data => output_text ++ data
                           end)
                        cells output_text ++ [LF])
                   (rows sheet) output_text in
               output_text ++ [LF; LF])
            book [])
  end.

(** The dispatch table, an attribute of the class. *)
Definition func_dict : gmap str (bytes -> result str) :=
  list_to_map
    [(py "pdf", get_text_from_pdf);
     (py "docx", get_text_from_word);
     (py "xlsx", get_text_from_excel);
     (py "xlsm", get_text_from_excel);
     (py "pptx", get_text_from_powerpoint);
     (py "txt", get_text_from_binary);
     (py "html", get_text_from_binary);
     (py "md", get_text_from_binary);
     (py "csv", get_text_from_binary)].

(** *** find *)

Definition patterns : list str :=
  map py ["*.docx"; "*.pdf"; "*.xlsx"; "*.xlsm"; "*.pptx"; "*.txt";
          "*.html"; "*.md"; "*.csv"]%string.

Definition new_connection (userid password : option str) : SMBConnection :=
  mkSMBConnection userid password (uname_node env) (py "10.2.230.40") true true.

(** The [for pattern in patterns] loop of the [try] block. [items]
    is the list extended in place, so what it holds when a
    [listPath] raises is still there after the handler. The loop
    ends at the first [listPath] that raises; the result is [items]
    and that exception, if any. *)
Fixpoint list_patterns (conn : SMBConnection) (args : FindArgs)
    (pats : list str) (items : list SharedFile)
  : M (list SharedFile * option exn) :=
  match pats with
  | [] => ret (items, None)
  | pattern :: pats' =>
      emit (EvListPath conn (share_directory args) (file_path args) pattern) ;;
      match smb_listPath env conn (share_directory args) (file_path args) pattern with
      | Ok files => list_patterns conn args pats' (items ++ files)
      | Raise e => ret (items, Some e)
      end
  end.

(** The [for file in all_files] loop, entered at its head: the next
    file is yielded and the generator suspends, or the loop is over. *)
Definition loop_head (args : FindArgs) (files : list str)
    (num_loaded num_filtered num_total : Z) : M (option item * FindGen) :=
  match files with
  | [] => ret (None, Finished)
  | file :: rest =>
      ret (Some (file, []), Suspended args rest num_loaded num_filtered num_total)
  end.

(** [find(self, ...)]: calling a generator function runs none of
    its body. *)
Definition find (self : t) (args : FindArgs) : FindGen := Created self args.

(** The body of [find] from where the generator stands to its next
    [yield] ([Some item]) or to its end ([None]). *)
Definition find_body (g : FindGen) : M (option item * FindGen) :=
  match g with
  | Created self args =>
      let search_path := of_str (_root_dir self) </> of_str (str_or (base_dir args) []) in
      let SMBUSER := userid args in
      let SMBPASS := password args in
      let RMADDR := file_server args in
      let RMPORT := 445 in
      let conn := new_connection SMBUSER SMBPASS in
      SMB_connect env conn RMADDR RMPORT ;;
      let* r := list_patterns conn args patterns [] in
      let items := r.1 in
      match r.2 with
      | Some e => print (py "Error: " ++ exc_msg e)
      | None => ret tt
      end ;;
      let all_files := map filename items in
      SMB_close conn ;;
      let num_loaded := 0 in
      let num_total := Z.of_nat (length all_files) in
      let num_filtered := 0 in
      loop_head args all_files num_loaded num_filtered num_total
  | Suspended args rest num_loaded num_filtered num_total =>
      let num_loaded := num_loaded + 1 in
      if (0 <? max_count args) && (max_count args <=? num_loaded) then
        ret (None, Finished)
      else
        (if progress args
         then emit (EvProgress (_create_progress_status num_loaded num_filtered num_total))
         else ret tt) ;;
        loop_head args rest num_loaded num_filtered num_total
  | Finished => ret (None, Finished)
  end.

(** [next(g)]: the item yielded, [None] for [StopIteration], or the
    exception raised by the body, which finishes the generator. *)
Definition find_next (g : FindGen) (w : World)
  : result (option item) * FindGen * World :=
  match find_body g w with
  | (Ok (x, g'), w') => (Ok x, g', w')
  | (Raise e, w') => (Raise e, Finished, w')
  end.

(** [list(g)] with at most [fuel] calls of [next]: the items yielded
    in order, then how the iteration ended. [None] when [fuel] calls
    were not enough. *)
Fixpoint consume (fuel : nat) (g : FindGen) (w : World)
  : option (list item * result unit * FindGen * World) :=
  match fuel with
  | O => None
  | S fuel' =>
      match find_next g w with
      | (Ok (Some x), g', w') =>
          match consume fuel' g' w' with
          | Some (xs, r, g'', w'') => Some (x :: xs, r, g'', w'')
          | None => None
          end
      | (Ok None, g', w') => Some ([], Ok tt, g', w')
      | (Raise e, g', w') => Some ([], Raise e, g', w')
      end
  end.

(** *** The local store *)

(** [has(self, key)] *)
Definition has (self : t) (key : str) : M bool :=
  ospath_exists (join_path (_root_dir self) key).

(** [_read_file(self, path, as_bytes, encoding)] *)
Definition _read_file (self : t) (path : Path) (as_bytes : option bool)
    (encoding : option str) : M value :=
  let read_type := if truthy as_bytes then mode_rb else mode_r in
  let encoding := if truthy as_bytes then None
                  else Some (str_or encoding (_encoding self)) in
  let* f := open_ env path read_type encoding in
  read f.

(** [get(self, key, as_bytes, encoding)] *)
Definition get (self : t) (key : str) (as_bytes : option bool)
    (encoding : option str) : M value :=
  let file_path := join_path (_root_dir self) key in
  let* b := has self key in
  if b then _read_file self file_path as_bytes encoding
  else
    let* b' := ospath_exists_str key in
    if b' then _read_file self (of_str key) as_bytes encoding
    else ret VNone.

(** [set(self, key, value, encoding)] *)
Definition set (self : t) (key : str) (v : value) (encoding : option str) : M unit :=
  let is_bytes := match v with VBytes _ => true | _ => false end in
  let write_type := if is_bytes then mode_wb else mode_w in
  let encoding := if is_bytes then None
                  else Some (str_or encoding (_encoding self)) in
  let* f := open_ env (join_path (_root_dir self) key) write_type encoding in
  write f v.

(** [delete(self, key)] *)
Definition delete (self : t) (key : str) : M unit :=
  let* b := has self key in
  if b then os_remove (join_path (_root_dir self) key) else ret tt.

(** [child(self, name)] *)
Definition child (self : t) (name : option str) : M t :=
  match name with
  | None => ret self
  | Some name =>
      __init__ (Some (to_str (of_str (_root_dir self) </> of_str name))) None
  end.

(** [clear(self)]: [Path(root).glob("*")] gives the entries of the
    root directory (none when the root is not a directory); a
    directory among them is removed with all that is below it
    ([shutil.rmtree]), any other entry is unlinked. [swept] tells
    whether the node at [loc] goes away. *)
Definition swept (ns : gmap (list str) node) (rootloc loc : list str) : bool :=
  match strip_prefix rootloc loc with
  | Some (x :: rest) =>
      match ns !! (rootloc ++ [x]) with
      | Some Dir => true
      | Some (File _) => bool_decide (rest = [])
      | None => false
      end
  | _ => false
  end.

Definition clear (self : t) : M unit :=
  let* w := ask in
  match namei w (of_str (_root_dir self)) with
  | Some rootloc =>
      match lookup_node (nodes w) rootloc with
      | Some Dir =>
          set_nodes (filter (fun kv => swept (nodes w) rootloc kv.1 = false))
      | _ => ret tt
      end
  | None => ret tt
  end.

(** *** getText *)

(** [getText(self, key, as_bytes, encoding, userid, password,
    share_directory, file_server, file_path)] *)
Definition getText (self : t) (key : str) (as_bytes : option bool)
    (encoding : option str)
    (userid password share_directory file_server file_path : option str)
  : M str :=
  let response := [] in
  let SMBUSER := userid in
  let SMBPASS := password in
  let RMADDR := file_server in
  let RMPORT := 445 in
  let conn := new_connection SMBUSER SMBPASS in
  SMB_connect env conn RMADDR RMPORT ;;
  let ext := (splitext key).2 in
  let ext := lower (drop 1 ext) in
  let* response :=
    (let* file := SMB_retrieveFile env conn (py "anthra")
                    (fmt_opt file_path ++ [SLASH] ++ key) in
     let* _ := lift (load_global "func_dict") in
     match func_dict !! ext with
     | Some func => lift (func file)
     | None => ret response
     end) in
  SMB_close conn ;;
  ret response.

End Methods.

End FilePipelineStorage.

(** ** Specification-level definitions *)

(** [stays_below depth segs]: walking [segs] from [depth] levels below a
    starting directory never goes above that directory. *)
Fixpoint stays_below (depth : nat) (segs : list str) : bool :=
  match segs with
  | [] => true
  | seg :: rest =>
      if str_eqb seg DOTDOT then
        match depth with
        | O => false
        | S d => stays_below d rest
        end
      else stays_below (S depth) rest
  end.

(** A key that is relative and never climbs above where it starts. *)
Definition confined_key (key : str) : Prop :=
  is_absolute (of_str key) = false /\ stays_below 0 (parts (of_str key)) = true.

(** The joined path of [root] and [key] denotes a location inside the
    location of [root], for a process working in [cwd]. *)
Definition stays_within_root (cwd : list str) (root key : str) : Prop :=
  inside (locate cwd (of_str root)) (locate cwd (join_path root key)).

(** [s] without its half-width and full-width spaces. *)
Definition strip_spaces (s : str) : str :=
  filter (fun c => c <> SPACE /\ c <> IDEOGRAPHIC_SPACE) s.

(** *** What [find] does, as functions of the server's answers *)

Section FindSpec.

Import FilePipelineStorage.

Variable env : Env.
Variable conn : SMBConnection.
Variable args : FindArgs.

Definition listing (pattern : str) : result (list SharedFile) :=
  smb_listPath env conn (share_directory args) (file_path args) pattern.

(** The patterns listed: up to and including the first one whose
    listing raises. *)
Fixpoint listed (pats : list str) : list str :=
  match pats with
  | [] => []
  | p :: pats' =>
      p :: match listing p with
           | Ok _ => listed pats'
           | Raise _ => []
           end
  end.

(** The entries gathered: those of the patterns before the first one
    whose listing raises. *)
Fixpoint gathered (pats : list str) : list SharedFile :=
  match pats with
  | [] => []
  | p :: pats' =>
      match listing p with
      | Ok files => files ++ gathered pats'
      | Raise _ => []
      end
  end.

(** The exception of the first listing that raises. *)
Fixpoint first_error (pats : list str) : option exn :=
  match pats with
  | [] => None
  | p :: pats' =>
      match listing p with
      | Ok _ => first_error pats'
      | Raise e => Some e
      end
  end.

Definition all_files : list str := map filename (gathered patterns).

(** The calls made on the connection by one enumeration. *)
Definition session_events : list event :=
  EvConnect conn (file_server args) 445
  :: map (EvListPath conn (share_directory args) (file_path args)) (listed patterns)
  ++ [EvClose conn].

(** The lines printed by one enumeration. *)
Definition error_lines : list str :=
  match first_error patterns with
  | Some e => [py "Error: " ++ exc_msg e]
  | None => []
  end.

(** The world after one enumeration and the calls [reports] of the
    reporter. *)
Definition after_find (w : World) (reports : list event) : World :=
  mkWorld (cwd w) (nodes w) (open_sessions w)
    (stdout w ++ error_lines)
    (trace w ++ session_events ++ reports).

(** The report after the [j]-th item out of [n], if a reporter is
    supplied. *)
Definition report (j n : Z) : list event :=
  if progress args then [EvProgress (_create_progress_status j 0 n)] else [].

(** The reports after the items [j+1] to [j+k]. *)
Definition reports_from (n : Z) (j k : nat) : list event :=
  if progress args
  then map (fun i => EvProgress (_create_progress_status (Z.of_nat i) 0 n)) (seq (S j) k)
  else [].

End FindSpec.

(** The number of items [find] yields out of [n] with [max_count = m]. *)
Definition yielded_count (m : Z) (n : nat) : nat :=
  if 0 <? m then Nat.min (Z.to_nat m) n else n.

(** The number of calls of the progress reporter. *)
Definition reported_count (m : Z) (n : nat) : nat :=
  if 0 <? m then Nat.min (Z.to_nat m - 1) n else n.

(** The reports for the items [1] to [k] out of [n]. *)
Definition progress_events (n k : nat) : list event :=
  map (fun i => EvProgress (_create_progress_status (Z.of_nat i) 0 (Z.of_nat n))) (seq 1 k).

Definition is_progress (e : event) : bool :=
  match e with EvProgress _ => true | _ => false end.

(** The world after more events. *)
Definition add_trace (w : World) (evs : list event) : World :=
  mkWorld (cwd w) (nodes w) (open_sessions w) (stdout w) (trace w ++ evs).

(** The world with another local file system. *)
Definition with_fs (w : World) (c : list str) (ns : gmap (list str) node) : World :=
  mkWorld c ns (open_sessions w) (stdout w) (trace w).

(** The events added to the trace between two worlds. *)
Definition new_events (w w' : World) : list event :=
  drop (length (trace w)) (trace w').

(** The statuses handed to the progress reporter, in order. *)
Definition statuses (evs : list event) : list Progress :=
  omap (fun e => match e with EvProgress s => Some s | _ => None end) evs.

Definition is_connect (e : event) : bool :=
  match e with EvConnect _ _ _ => true | _ => false end.

Definition is_close (e : event) : bool :=
  match e with EvClose _ => true | _ => false end.

(** *** The claims of the specification that the code does not meet,
        as predicates *)

Section Claims.

Import FilePipelineStorage.

Variable env : Env.

(** A failed listing is followed by the listings of the remaining
    patterns. *)
Definition continues_with_remaining (self : t) (args : FindArgs) (w : World) : Prop :=
  let conn := new_connection env (userid args) (password args) in
  forall pre p post e,
    patterns = pre ++ p :: post ->
    listing env conn args p = Raise e ->
    forall q, q ∈ post ->
      EvListPath conn (share_directory args) (file_path args) q
        ∈ trace (find_next env (find self args) w).2.

(** The session opened by [getText] is closed when the call is over,
    however it ends. *)
Definition closes_session (self : t) (key : str)
    (userid password share_directory file_server file_path : option str)
    (w : World) : Prop :=
  open_sessions
    (getText env self key None None userid password share_directory
       file_server file_path w).2
  = open_sessions w.

(** Without credentials [find] makes no connection. *)
Definition local_without_credentials (self : t) (args : FindArgs) (w : World) : Prop :=
  userid args = None -> password args = None -> share_directory args = None ->
  file_server args = None -> file_path args = None ->
  Forall (fun e => is_connect e = false)
    (new_events w (find_next env (find self args) w).2).

(** The docx rule returns the paragraph texts joined, unchanged. *)
Definition word_text_verbatim (file : bytes) : Prop :=
  forall paragraphs,
    docx_Document env file = Ok paragraphs ->
    get_text_from_word env file = Ok (concat (map par_text paragraphs)).

(** The reporter is called once for each item yielded, the last one
    included. *)
Definition reports_every_item (self : t) (args : FindArgs) (w : World) (fuel : nat) : Prop :=
  forall items r g w',
    consume env fuel (find self args) w = Some (items, r, g, w') ->
    length (statuses (new_events w w')) = length items.

(** What was written with [set] is what [get] returns. *)
Definition as_bytes_of (v : value) : option bool :=
  match v with VBytes _ => Some true | _ => Some false end.

Definition set_get_round_trip (self : t) (key : str) (v : value)
    (encoding : option str) (w : World) : Prop :=
  forall w',
    set env self key v encoding w = (Ok tt, w') ->
    (get env self key (as_bytes_of v) encoding w').1 = Ok v.

End Claims.

(** The codec registered under [name], if any, decodes what it encodes. *)
Definition codec_round_trips (env : Env) (name : str) : Prop :=
  forall c, codecs_lookup env name = Some c ->
  forall s b, encode c s = Ok b -> decode c b = Ok s.

(** ** A share and a store to run the definitions on *)

Module Demo.

Import FilePipelineStorage.

Definition codecs (name : str) : option Codec :=
  if str_eqb name (py "utf-8") then Some utf_8.codec else None.

Definition failure : exn := mkError "OperationFailure" (py "Failed to list the share").

Definition listPath (pdf_fails : bool) (pattern : str) : result (list SharedFile) :=
  if str_eqb pattern (py "*.docx")
  then Ok [mkSharedFile (py "a.docx"); mkSharedFile (py "b.docx")]
  else if str_eqb pattern (py "*.pdf")
  then (if pdf_fails then Raise failure else Ok [mkSharedFile (py "c.pdf")])
  else if str_eqb pattern (py "*.txt")
  then Ok [mkSharedFile (py "notes.txt")]
  else Ok [].

Definition retrieveFile (fails : bool) : result bytes :=
  if fails then Raise (mkError "OperationFailure" (py "Failed to retrieve the file"))
  else Ok (py "hello").

(** A server that accepts every connection; the listing of [*.pdf]
    and the retrieval fail on demand. *)
Definition env (pdf_fails retrieve_fails : bool) : Env :=
  mkEnv (py "worker-1") codecs
    (fun _ _ _ => None)
    (fun _ _ _ pattern => listPath pdf_fails pattern)
    (fun _ _ _ => retrieveFile retrieve_fails)
    (fun _ => Ok [mkParagraph (py "a b"); mkParagraph (py "c" ++ [IDEOGRAPHIC_SPACE] ++ py "d")])
    (fun _ => Ok [[mkShape true (py "a" ++ [LF] ++ py "b  c" ++ [IDEOGRAPHIC_SPACE] ++ py "d")]])
    (fun _ => Ok [mkWorksheet (py "Sheet1") [[Some (py "x"); Some (py "y")]]])
    (fun _ => Ok (py "text of the pages")).

(** A process working in [/home], where the store directory [out]
    exists. *)
Definition world : World :=
  mkWorld [py "home"]
    (<[ [py "home"; py "out"] := Dir ]> (<[ [py "home"] := Dir ]> ∅)) 0 [] [].

Definition store : t := mk (py "out") (py "utf-8").

(** [find] called with credentials, a reporter and [max_count]. *)
Definition args (max_count : Z) : FindArgs :=
  mkFindArgs (py ".*") None true None max_count
    (Some (py "alice")) (Some (py "secret")) (Some (py "docs"))
    (Some (py "10.0.0.7")) (Some (py "reports")).

(** [find] called with the pattern only. *)
Definition bare_args : FindArgs :=
  mkFindArgs (py ".*") None false None (-1) None None None None None.

End Demo.

(** The world once [content] is the file at [loc]. *)
Definition written (w : World) (loc : list str) (content : bytes) : World :=
  mkWorld (cwd w) (<[loc := File content]> (nodes w)) (open_sessions w)
    (stdout w) (trace w).

(** What a text value needs for its round trip: no carriage return, and
    a codec that decodes what it encodes. *)
Definition round_trip_safe (env : Env) (encoding : str) (v : value) : Prop :=
  match v with
  | VStr s => (CR ∉ s) /\ codec_round_trips env encoding
  | _ => True
  end.

(** The path [p] names nothing in the world [w]: a directory on the way
    is missing, or the last segment is. *)
Definition names_nothing (w : World) (p : Path) : Prop :=
  match namei w p with
  | Some loc => lookup_node (nodes w) loc = None
  | None => True
  end.

(** [s] without its line feeds, half-width and full-width spaces. *)
Definition strip_layout (s : str) : str :=
  filter (fun c => c <> LF /\ c <> SPACE /\ c <> IDEOGRAPHIC_SPACE) s.

(** The text of a cell: nothing for an empty one. *)
Definition cell_text (cell : option str) : str :=
  match cell with Some data => data | None => [] end.

(** The text of a row: its cells one after the other, then a line feed. *)
Definition row_text (cells : list (option str)) : str :=
  flat_map cell_text cells ++ [LF].

(** The text of a sheet: its name on a line, its rows, two empty lines. *)
Definition sheet_text (sheet : Worksheet) : str :=
  sheet_name sheet ++ [LF] ++ flat_map row_text (rows sheet) ++ [LF; LF].

(** A path as [of_str] makes them: no segment is empty, ["."] or holds
    a slash. *)
Definition well_formed (p : Path) : Prop :=
  Forall (fun w => (SLASH ∉ w) /\ is_segment w = true) (parts p).

Section Requests.

Import FilePipelineStorage.

Variable env : Env.

(** [k] calls of [next] on a generator, whatever they give: where the
    generator and the world stand when the consumer stops there. *)
Fixpoint advance (k : nat) (g : FindGen) (w : World) : FindGen * World :=
  match k with
  | O => (g, w)
  | S k' => advance k' (find_next env g w).1.2 (find_next env g w).2
  end.

(** Two calls of [find] that differ at most in [file_pattern],
    [base_dir] and [file_filter]. *)
Definition same_request (a b : FindArgs) : Prop :=
  progress a = progress b /\ max_count a = max_count b
  /\ userid a = userid b /\ password a = password b
  /\ share_directory a = share_directory b
  /\ file_server a = file_server b /\ file_path a = file_path b.

End Requests.

(** A server that refuses every connection, and is otherwise the demo
    share. *)
Definition refusing_env : Env :=
  mkEnv (py "worker-1") Demo.codecs
    (fun _ _ _ => Some (mkError "ConnectionRefusedError" (py "Connection refused")))
    (fun _ _ _ pattern => Demo.listPath false pattern)
    (fun _ _ _ => Demo.retrieveFile false)
    (fun _ => Ok []) (fun _ => Ok []) (fun _ => Ok []) (fun _ => Ok []).

(** The demo world with a file and a directory holding a file in the
    store directory, and a file beside it. *)
Definition stocked_world : World :=
  mkWorld [py "home"]
    (<[ [py "home"; py "out"; py "sub"; py "b.txt"] := File (py "b") ]>
       (<[ [py "home"; py "out"; py "sub"] := Dir ]>
          (<[ [py "home"; py "out"; py "a.txt"] := File (py "a") ]>
             (<[ [py "home"; py "keep.txt"] := File (py "k") ]>
                (nodes Demo.world)))))
    0 [] [].

(** The world once the node at [loc] is gone. *)
Definition removed (w : World) (loc : list str) : World :=
  mkWorld (cwd w) (base.delete loc (nodes w)) (open_sessions w) (stdout w) (trace w).

(** Every node that differs between [w] and [w'] lies inside [root]. *)
Definition acts_within (root : list str) (w w' : World) : Prop :=
  forall loc, nodes w' !! loc <> nodes w !! loc -> inside root loc.

Section Confinement.

Import FilePipelineStorage.

Variable env : Env.

(** What [get] returns as bytes is the content of a file inside the
    root directory. *)
Definition served_from_root (self : t) (key : str) (w : World) : Prop :=
  forall encoding content,
    get env self key (Some true) encoding w = (Ok (VBytes content), w) ->
    exists loc,
      inside (locate (cwd w) (of_str (_root_dir self))) loc
      /\ lookup_node (nodes w) loc = Some (File content).

(** C9 as the specification states it, for one key in one world: the
    joined path stays within the root directory, and so does what
    [set], [delete], [has] and [get] do with the key. *)
Definition stays_within_root_in_use (self : t) (key : str) (w : World) : Prop :=
  let root := locate (cwd w) (of_str (_root_dir self)) in
  stays_within_root (cwd w) (_root_dir self) key
  /\ (forall v encoding r w',
        set env self key v encoding w = (r, w') -> acts_within root w w')
  /\ (forall r w', delete self key w = (r, w') -> acts_within root w w')
  /\ (has self key w = (Ok true, w) ->
      exists loc,
        namei w (join_path (_root_dir self) key) = Some loc
        /\ inside root loc /\ is_Some (lookup_node (nodes w) loc))
  /\ served_from_root self key w.

End Confinement.

(** ** Paths *)

Lemma split_on_no_sep sep s : Forall (fun w => sep ∉ w) (split_on sep s).
Proof.
  induction s as [|c s IH]; simpl.
  - constructor; [ apply not_elem_of_nil | constructor ].
  - destruct (N.eqb_spec c sep) as [->|Hne].
    + constructor; [ apply not_elem_of_nil | exact IH ].
    + destruct (split_on sep s) as [|w ws]; simpl.
      * constructor; [ | constructor ].
        intros H. apply list_elem_of_singleton in H. congruence.
      * inversion IH as [|? ? Hw Hws]; subst. constructor; [ | exact Hws ].
        intros H. apply elem_of_cons in H. destruct H as [H|H]; [ congruence | tauto ].
Qed.

Lemma split_on_single sep w : sep ∉ w -> split_on sep w = [w].
Proof.
  induction w as [|c w IH]; intros Hw; simpl; [ reflexivity | ].
  destruct (N.eqb_spec c sep) as [->|Hne].
  - exfalso. apply Hw. left.
  - rewrite IH; [ reflexivity | ]. intros H. apply Hw. right. exact H.
Qed.

Lemma of_str_segment w :
  SLASH ∉ w -> is_segment w = true -> of_str w = mkPath NoRoot [w].
Proof.
  intros Hs Hseg. unfold of_str. rewrite (split_on_single _ _ Hs).
  f_equal.
  - destruct w as [|a w]; [ reflexivity | ].
    assert (Ha : N.eqb a SLASH = false).
    { apply N.eqb_neq. intros ->. apply Hs. left. }
    destruct w as [|b [|c w]]; simpl; rewrite Ha; reflexivity.
  - simpl. apply list.filter_singleton_True; [ exact [] | exact Hseg ].
Qed.

Lemma of_str_parts_segments s :
  Forall (fun w => (SLASH ∉ w) /\ is_segment w = true) (parts (of_str s)).
Proof.
  unfold of_str; simpl. apply Forall_forall. intros w Hw.
  apply list_elem_of_filter in Hw. destruct Hw as [Hseg Hin].
  split; [ | exact Hseg ].
  pose proof (split_on_no_sep SLASH s) as HF.
  rewrite Forall_forall in HF. apply HF. exact Hin.
Qed.

Lemma snoc_cases (l : list str) : l = [] \/ exists l' x, l = l' ++ [x].
Proof.
  destruct (decide (l = [])) as [->|Hne]; [ left; reflexivity | right ].
  destruct (exists_last Hne) as [l' [x ->]]. eauto.
Qed.

Lemma join_path_truediv root key :
  join_path root key = of_str root </> of_str key.
Proof.
  unfold join_path.
  pose proof (of_str_parts_segments key) as Hsegs.
  destruct (of_str key) as [r ps] eqn:Hk. simpl in Hsegs.
  destruct (snoc_cases ps) as [->|[l' [x ->]]].
  - unfold name, parent; simpl.
    change (of_str []) with (mkPath NoRoot []).
    unfold truediv; simpl. destruct r; simpl; rewrite ?app_nil_r; reflexivity.
  - apply Forall_app in Hsegs. destruct Hsegs as [_ Hx].
    inversion Hx as [|? ? [Hx1 Hx2] _]; subst.
    unfold name, parent; simpl. rewrite last_last, removelast_last.
    rewrite (of_str_segment x Hx1 Hx2).
    unfold truediv; simpl. destruct r; simpl; rewrite <- ?app_assoc; reflexivity.
Qed.

Lemma step_app_below R t seg :
  (str_eqb seg DOTDOT = true -> t <> []) ->
  step (R ++ t) seg = R ++ step t seg.
Proof.
  unfold step. intros Ht. destruct (str_eqb seg DOTDOT).
  - apply removelast_app. apply Ht. reflexivity.
  - rewrite app_assoc. reflexivity.
Qed.

Lemma resolve_stays_below segs : forall R t,
  stays_below (length t) segs = true ->
  exists t', resolve_from (R ++ t) segs = R ++ t'.
Proof.
  unfold resolve_from.
  induction segs as [|seg rest IH]; intros R t Hs; simpl.
  - exists t. reflexivity.
  - simpl in Hs. rewrite step_app_below.
    + apply IH. unfold step. destruct (str_eqb seg DOTDOT).
      * destruct (snoc_cases t) as [->|[l' [x ->]]]; [ discriminate | ].
        rewrite removelast_last. rewrite length_app in Hs. simpl in Hs.
        replace (length l' + 1)%nat with (S (length l')) in Hs by lia. exact Hs.
      * rewrite length_app. simpl.
        replace (length t + 1)%nat with (S (length t)) by lia. exact Hs.
    + intros Heq -> . rewrite Heq in Hs. discriminate.
Qed.

Lemma locate_truediv_relative cwd p q :
  is_absolute q = false ->
  locate cwd (p </> q) = resolve_from (locate cwd p) (parts q).
Proof.
  intros Hq. unfold locate, truediv. rewrite Hq.
  unfold is_absolute. cbn [path_root parts].
  unfold resolve_from. apply fold_left_app.
Qed.

(** For a key that is relative and whose [".."] segments never climb
    above the place where the key starts, the path joined from the root
    of the store and the key denotes a location inside the root
    directory. *)
Theorem join_path_confined cwd root key :
  confined_key key -> stays_within_root cwd root key.
Proof.
  intros [Hrel Hbelow]. unfold stays_within_root, inside.
  rewrite join_path_truediv, (locate_truediv_relative _ _ _ Hrel).
  destruct (resolve_stays_below (parts (of_str key)) (locate cwd (of_str root)) [] Hbelow)
    as [t' Ht'].
  rewrite app_nil_r in Ht'. rewrite Ht'. exists t'. reflexivity.
Qed.

(** The key ["a/../b.txt"] under the root ["out"]. *)
Lemma join_path_confined_witness :
  confined_key (py "a/../b.txt") /\ stays_within_root [py "home"] (py "out") (py "a/../b.txt").
Proof.
  assert (H : confined_key (py "a/../b.txt")) by (split; reflexivity).
  split; [ exact H | exact (join_path_confined _ _ _ H) ].
Defined.

(** The key ["../secret"] joined to the root ["out"] denotes
    [/home/secret], outside [/home/out]. *)
Lemma join_path_escapes_root :
  ~ stays_within_root [py "home"] (py "out") (py "../secret").
Proof.
  unfold stays_within_root, inside. intros [k Hk].
  vm_compute in Hk. discriminate Hk.
Qed.

(** ** The enumeration of [find] *)

Lemma bind_eq {A B} (m : M A) (k : A -> M B) w :
  bind m k w = match m w with
               | (Ok a, w') => k a w'
               | (Raise e, w') => (Raise e, w')
               end.
Proof. reflexivity. Qed.

Lemma add_trace_nil w : add_trace w [] = w.
Proof. destruct w. unfold add_trace. simpl. rewrite app_nil_r. reflexivity. Qed.

Lemma add_trace_app w a b : add_trace (add_trace w a) b = add_trace w (a ++ b).
Proof. unfold add_trace. simpl. rewrite app_assoc. reflexivity. Qed.

Section FindLemmas.

Import FilePipelineStorage.

Variable env : Env.

Lemma list_patterns_spec conn args pats : forall items w,
  list_patterns env conn args pats items w =
  (Ok (items ++ gathered env conn args pats, first_error env conn args pats),
   add_trace w (map (EvListPath conn (share_directory args) (file_path args))
                    (listed env conn args pats))).
Proof.
  induction pats as [|p pats IH]; intros items w; simpl.
  - unfold ret. rewrite add_trace_nil, app_nil_r. reflexivity.
  - unfold bind, emit, listing; simpl.
    destruct (smb_listPath env conn (share_directory args) (file_path args) p) as [files|e].
    + rewrite IH. unfold add_trace. simpl. rewrite <- !app_assoc. reflexivity.
    + unfold ret, add_trace. rewrite app_nil_r. reflexivity.
Qed.

Lemma after_find_add_trace conn args w a b :
  add_trace (after_find env conn args w a) b = after_find env conn args w (a ++ b).
Proof.
  unfold add_trace, after_find. cbn [cwd nodes open_sessions stdout trace].
  rewrite <- !app_assoc. reflexivity.
Qed.

Lemma find_body_created self args w :
  smb_connect env (new_connection env (userid args) (password args)) (file_server args) 445 = None ->
  find_body env (Created self args) w =
  loop_head args (all_files env (new_connection env (userid args) (password args)) args)
    0 0 (Z.of_nat (length (all_files env (new_connection env (userid args) (password args)) args)))
    (after_find env (new_connection env (userid args) (password args)) args w []).
Proof.
  intros Hc. unfold find_body.
  set (conn := new_connection env (userid args) (password args)) in *.
  rewrite bind_eq. unfold SMB_connect at 1. rewrite bind_eq. unfold emit at 1.
  rewrite Hc. unfold set_sessions at 1. rewrite bind_eq, list_patterns_spec.
  cbn [fst snd app]. rewrite bind_eq.
  unfold add_trace. cbn [cwd nodes open_sessions stdout trace].
  unfold after_find, error_lines, session_events, all_files.
  assert (Hloop : forall fs a b c w1 w2, w1 = w2 -> loop_head args fs a b c w1 = loop_head args fs a b c w2)
    by (intros; subst; reflexivity).
  destruct (first_error env conn args patterns) as [e|].
  - unfold print at 1. cbn [cwd nodes open_sessions stdout trace].
    rewrite bind_eq. unfold SMB_close. rewrite bind_eq. unfold emit, set_sessions.
    cbn [cwd nodes open_sessions stdout trace Nat.pred].
    apply Hloop. rewrite app_nil_r. f_equal. rewrite <- !app_assoc. reflexivity.
  - unfold ret at 1.
    rewrite bind_eq. unfold SMB_close. rewrite bind_eq. unfold emit, set_sessions.
    cbn [cwd nodes open_sessions stdout trace Nat.pred].
    apply Hloop. rewrite !app_nil_r. f_equal. rewrite <- !app_assoc. reflexivity.
Qed.

Lemma find_next_stop args rest j nf n w :
  0 < max_count args -> max_count args <= j + 1 ->
  find_next env (Suspended args rest j nf n) w = (Ok None, Finished, w).
Proof.
  intros H1 H2. unfold find_next, find_body.
  destruct (Z.ltb_spec 0 (max_count args)); [ | lia ].
  destruct (Z.leb_spec (max_count args) (j + 1)); [ | lia ].
  reflexivity.
Qed.

Lemma find_next_go args rest j n w :
  (0 < max_count args -> j + 1 < max_count args) ->
  find_next env (Suspended args rest j 0 n) w =
  (match rest with [] => Ok None | f :: _ => Ok (Some (f, [])) end,
   match rest with [] => Finished | _ :: r => Suspended args r (j + 1) 0 n end,
   add_trace w (report args (j + 1) n)).
Proof.
  intros H. unfold find_next, find_body, report.
  assert (Hc : (0 <? max_count args) && (max_count args <=? j + 1) = false).
  { destruct (Z.ltb_spec 0 (max_count args)); [ | reflexivity ].
    destruct (Z.leb_spec (max_count args) (j + 1)); [ lia | reflexivity ]. }
  rewrite Hc, bind_eq.
  destruct (progress args).
  - unfold emit. destruct rest; reflexivity.
  - unfold ret at 1. rewrite add_trace_nil. destruct rest; reflexivity.
Qed.

Lemma reports_from_0 args n j : reports_from args n j 0 = [].
Proof. unfold reports_from. destruct (progress args); reflexivity. Qed.

Lemma reports_from_S args n j k :
  reports_from args n j (S k) = report args (Z.of_nat j + 1) n ++ reports_from args n (S j) k.
Proof.
  unfold reports_from, report. destruct (progress args); [ | reflexivity ].
  simpl. replace (Z.of_nat j + 1) with (Z.of_nat (S j)) by lia. reflexivity.
Qed.

(** Draining a generator suspended after its [(j+1)]-th item. *)
Lemma consume_suspended args n rest : forall j fuel w,
  (length rest < fuel)%nat ->
  (0 < max_count args -> Z.of_nat j < max_count args) ->
  let lim := if 0 <? max_count args
             then Z.to_nat (max_count args - 1 - Z.of_nat j)
             else S (length rest) in
  consume env fuel (Suspended args rest (Z.of_nat j) 0 n) w =
  Some (map (fun f => (f, [])) (take (Nat.min (length rest) lim) rest),
        Ok tt, Finished,
        add_trace w (reports_from args n j (Nat.min (S (length rest)) lim))).
Proof.
  induction rest as [|f rest IH]; intros j fuel w Hfuel Hj lim;
    (destruct fuel as [|fuel]; [ simpl in Hfuel; lia | ]); cbn [consume].
  - destruct (Z.ltb_spec 0 (max_count args)) as [Hm|Hm].
    + destruct (Z.le_gt_cases (max_count args) (Z.of_nat j + 1)) as [Hle|Hgt].
      * rewrite find_next_stop by lia. subst lim.
        replace (Z.to_nat _) with O by lia.
        rewrite reports_from_0, add_trace_nil. reflexivity.
      * rewrite find_next_go by lia. subst lim.
        replace (Z.to_nat _) with (S (Z.to_nat (max_count args - 2 - Z.of_nat j))) by lia.
        cbn [length Nat.min]. rewrite reports_from_S, reports_from_0, app_nil_r. reflexivity.
    + rewrite find_next_go by lia. subst lim. cbn [length Nat.min].
      rewrite reports_from_S, reports_from_0, app_nil_r. reflexivity.
  - destruct (Z.ltb_spec 0 (max_count args)) as [Hm|Hm].
    + destruct (Z.le_gt_cases (max_count args) (Z.of_nat j + 1)) as [Hle|Hgt].
      * rewrite find_next_stop by lia. subst lim.
        replace (Z.to_nat _) with O by lia. rewrite !Nat.min_0_r.
        rewrite reports_from_0, add_trace_nil. reflexivity.
      * rewrite find_next_go by lia.
        replace (Z.of_nat j + 1) with (Z.of_nat (S j)) by lia.
        rewrite IH by (simpl in Hfuel; lia).
        destruct (Z.ltb_spec 0 (max_count args)); [ | lia ].
        subst lim.
        replace (Z.to_nat (max_count args - 1 - Z.of_nat j))
          with (S (Z.to_nat (max_count args - 1 - Z.of_nat (S j)))) by lia.
        cbn [length]. rewrite <- !Nat.succ_min_distr. cbn [take map].
        rewrite add_trace_app, (reports_from_S args n j).
        replace (Z.of_nat j + 1) with (Z.of_nat (S j)) by lia. reflexivity.
    + rewrite find_next_go by lia.
      replace (Z.of_nat j + 1) with (Z.of_nat (S j)) by lia.
      rewrite IH by (simpl in Hfuel; lia).
      destruct (Z.ltb_spec 0 (max_count args)); [ lia | ].
      subst lim. cbn [length].
      rewrite (Nat.min_l (S (length rest)) (S (S (length rest)))) by lia.
      rewrite (Nat.min_l (length rest) (S (length rest))) by lia.
      rewrite (Nat.min_l (S (S (length rest))) (S (S (length rest)))) by lia.
      rewrite (Nat.min_l (S (length rest)) (S (length rest))) by lia.
      cbn [take map].
      rewrite add_trace_app, (reports_from_S args n j).
      replace (Z.of_nat j + 1) with (Z.of_nat (S j)) by lia. reflexivity.
Qed.

Lemma consume_find self args w fuel :
  let conn := new_connection env (userid args) (password args) in
  let files := all_files env conn args in
  smb_connect env conn (file_server args) 445 = None ->
  (length files < fuel)%nat ->
  consume env fuel (find self args) w =
  Some (map (fun f => (f, [])) (take (yielded_count (max_count args) (length files)) files),
        Ok tt, Finished,
        after_find env conn args w
          (reports_from args (Z.of_nat (length files)) 0
             (reported_count (max_count args) (length files)))).
Proof.
  intros conn files Hc Hfuel.
  destruct fuel as [|fuel]; [ lia | ]. cbn [consume]. unfold find, find_next.
  rewrite (find_body_created self args w Hc). fold conn. fold files.
  unfold yielded_count, reported_count.
  destruct files as [|f rest] eqn:Hfiles.
  - cbn [loop_head]. unfold ret. cbn [length take map].
    rewrite !Nat.min_0_r.
    destruct (0 <? max_count args); rewrite reports_from_0; reflexivity.
  - cbn [loop_head]. unfold ret.
    pose proof (consume_suspended args (Z.of_nat (length (f :: rest))) rest 0 fuel
                  (after_find env conn args w [])) as Hs.
    cbv zeta in Hs. change (Z.of_nat 0) with 0 in Hs.
    rewrite Hs by (simpl in Hfuel; lia). clear Hs.
    rewrite after_find_add_trace. cbn [app length].
    destruct (Z.ltb_spec 0 (max_count args)) as [Hm|Hm].
    + replace (Z.to_nat (max_count args)) with (S (Z.to_nat (max_count args - 1 - 0))) by lia.
      rewrite <- Nat.succ_min_distr. cbn [take map].
      replace (S (Z.to_nat (max_count args - 1 - 0)) - 1)%nat
        with (Z.to_nat (max_count args - 1 - 0)) by lia.
      rewrite (Nat.min_comm (length rest) _), (Nat.min_comm (S (length rest)) _).
      reflexivity.
    + rewrite (Nat.min_l (length rest) (S (length rest))) by lia.
      rewrite Nat.min_id. rewrite firstn_all. cbn [take map].
      rewrite firstn_all. reflexivity.
Qed.

End FindLemmas.

(** ** getText *)

Section GetTextLemmas.

Import FilePipelineStorage.

Variable env : Env.

(** The world once [getText] has connected and asked for the file. *)
Lemma getText_spec self key as_bytes encoding userid password share_directory
    file_server file_path w :
  let conn := new_connection env userid password in
  let target := fmt_opt file_path ++ [SLASH] ++ key in
  getText env self key as_bytes encoding userid password share_directory
    file_server file_path w =
  match smb_connect env conn file_server 445 with
  | Some e => (Raise e, add_trace w [EvConnect conn file_server 445])
  | None =>
      let w1 := mkWorld (cwd w) (nodes w) (S (open_sessions w)) (stdout w)
                  (trace w ++ [EvConnect conn file_server 445;
                               EvRetrieveFile conn (py "anthra") target]) in
      match smb_retrieveFile env conn (py "anthra") target with
      | Raise e => (Raise e, w1)
      | Ok _ =>
          (Raise (mkError "NameError" (py "name 'func_dict' is not defined")), w1)
      end
  end.
Proof.
  intros conn target. unfold getText. fold conn. fold target.
  rewrite bind_eq. unfold SMB_connect at 1. rewrite bind_eq. unfold emit at 1.
  destruct (smb_connect env conn file_server 445) as [e|].
  - reflexivity.
  - unfold set_sessions at 1. rewrite !bind_eq.
    unfold SMB_retrieveFile at 1. rewrite bind_eq. unfold emit at 1, lift at 1.
    cbn [cwd nodes open_sessions stdout trace]. rewrite <- app_assoc. cbn [app].
    destruct (smb_retrieveFile env conn (py "anthra") target) as [file|e];
      reflexivity.
Qed.

End GetTextLemmas.

Lemma new_events_app w evs w' :
  trace w' = trace w ++ evs -> new_events w w' = evs.
Proof. intros H. unfold new_events. rewrite H. apply drop_app_length. Qed.

Lemma statuses_app a b : statuses (a ++ b) = statuses a ++ statuses b.
Proof. unfold statuses. apply omap_app. Qed.

Lemma statuses_listings conn share path (pats : list str) :
  statuses (map (EvListPath conn share path) pats) = [].
Proof. induction pats as [|p pats IH]; [ reflexivity | exact IH ]. Qed.

Lemma statuses_session_events env conn args :
  statuses (session_events env conn args) = [].
Proof.
  unfold session_events.
  change (statuses (EvConnect conn (FilePipelineStorage.file_server args) 445 :: ?l))
    with (statuses l).
  rewrite statuses_app, statuses_listings. reflexivity.
Qed.

Lemma statuses_reports_from args n j k :
  length (statuses (reports_from args n j k))
  = if FilePipelineStorage.progress args then k else O.
Proof.
  unfold reports_from. destruct (FilePipelineStorage.progress args); [ | reflexivity ].
  generalize (S j). induction k as [|k IH]; intros i; [ reflexivity | ].
  simpl. f_equal. apply IH.
Qed.

Section ListingLemmas.

Import FilePipelineStorage.

Variable env : Env.
Variable conn : SMBConnection.
Variable args : FindArgs.

Lemma listed_until_failure pre p post e :
  Forall (fun q => exists files, listing env conn args q = Ok files) pre ->
  listing env conn args p = Raise e ->
  listed env conn args (pre ++ p :: post) = pre ++ [p]
  /\ gathered env conn args (pre ++ p :: post) = gathered env conn args pre
  /\ first_error env conn args (pre ++ p :: post) = Some e.
Proof.
  intros Hpre Hp. induction Hpre as [|q pre [files Hq] _ IH]; simpl.
  - rewrite Hp. auto.
  - rewrite Hq. destruct IH as (-> & -> & ->). auto.
Qed.

End ListingLemmas.

Lemma statuses_progress_map (n : Z) (l : list nat) :
  statuses (map (fun i => EvProgress (_create_progress_status (Z.of_nat i) 0 n)) l)
  = map (fun i => _create_progress_status (Z.of_nat i) 0 n) l.
Proof. induction l as [|i l IH]; [ reflexivity | ]. simpl. f_equal. exact IH. Qed.

Lemma reported_count_cases (m : Z) (n : nat) :
  reported_count m n
  = if (0 <? m) && (m <=? Z.of_nat n) then (Z.to_nat m - 1)%nat else n.
Proof.
  unfold reported_count.
  destruct (Z.ltb_spec 0 m); [ | reflexivity ].
  destruct (Z.leb_spec m (Z.of_nat n)); simpl; lia.
Qed.

(** ** The claims about [find] *)

Section FindClaims.

Import FilePipelineStorage.

Variable env : Env.

(** C7. Drained to its end, [find] with [max_count = m > 0] yields
    exactly [min(m, number of files found)] items, the first ones in
    enumeration order, and is then finished (every further [next]
    stops at once); with [max_count <= 0] it yields all of them. *)
Theorem find_honours_max_count (self : t) (args : FindArgs) (w : World) (fuel : nat) :
  let conn := new_connection env (userid args) (password args) in
  let files := all_files env conn args in
  smb_connect env conn (file_server args) 445 = None ->
  (length files < fuel)%nat ->
  exists items w',
    consume env fuel (find self args) w = Some (items, Ok tt, Finished, w')
    /\ items = map (fun f => (f, [])) (take (length items) files)
    /\ length items = (if 0 <? max_count args
                       then Nat.min (Z.to_nat (max_count args)) (length files)
                       else length files)
    /\ find_next env Finished w' = (Ok None, Finished, w').
Proof.
  intros conn files Hc Hfuel.
  exists (map (fun f => (f, []))
            (take (yielded_count (max_count args) (length files)) files)),
         (after_find env conn args w
            (reports_from args (Z.of_nat (length files)) 0
               (reported_count (max_count args) (length files)))).
  split; [ apply (consume_find env self args w fuel Hc Hfuel) | ].
  assert (Hy : Nat.min (yielded_count (max_count args) (length files)) (length files)
               = yielded_count (max_count args) (length files)).
  { unfold yielded_count. destruct (0 <? max_count args); lia. }
  rewrite length_map, length_take, Hy.
  split; [ reflexivity | ].
  split; [ reflexivity | reflexivity ].
Qed.

(** C8 (amended). Drained to its end with a reporter supplied, [find]
    calls the reporter once for each item yielded except the one at
    which [max_count] is reached: with [n] files found and
    [0 < max_count <= n] the reports are those of the items [1] to
    [max_count - 1], otherwise those of the items [1] to [n]. The
    report of item [i] carries [i] loaded, [0] filtered and [n] in
    total. *)
Theorem find_progress_reports (self : t) (args : FindArgs) (w : World) (fuel : nat) :
  let conn := new_connection env (userid args) (password args) in
  let n := length (all_files env conn args) in
  smb_connect env conn (file_server args) 445 = None ->
  progress args = true ->
  (n < fuel)%nat ->
  exists items w',
    consume env fuel (find self args) w = Some (items, Ok tt, Finished, w')
    /\ length items = yielded_count (max_count args) n
    /\ statuses (new_events w w')
       = map (fun i => mkProgress (Z.of_nat n) (Z.of_nat i + 0)
                         (str_of_int (Z.of_nat i) ++ py " files loaded ("
                          ++ str_of_int 0 ++ py " filtered)"))
           (seq 1 (if (0 <? max_count args) && (max_count args <=? Z.of_nat n)
                   then Z.to_nat (max_count args) - 1
                   else n)).
Proof.
  intros conn n Hc Hp Hfuel.
  exists (map (fun f => (f, []))
            (take (yielded_count (max_count args) n) (all_files env conn args))),
         (after_find env conn args w
            (reports_from args (Z.of_nat n) 0 (reported_count (max_count args) n))).
  split; [ apply (consume_find env self args w fuel Hc Hfuel) | ].
  split.
  - rewrite length_map, length_take. unfold yielded_count.
    destruct (0 <? max_count args); lia.
  - rewrite (new_events_app w (session_events env conn args
               ++ reports_from args (Z.of_nat n) 0 (reported_count (max_count args) n)))
      by reflexivity.
    rewrite statuses_app, statuses_session_events. cbn [app].
    unfold reports_from. rewrite Hp, statuses_progress_map, reported_count_cases.
    reflexivity.
Qed.

(** C3 (amended). When the listing of one pattern fails, the error is
    printed, the patterns after it are not listed, and the enumeration
    goes on with the entries gathered from the patterns before it:
    [find] does not fail, and the session is closed. *)
Theorem find_listing_failure_contained (self : t) (args : FindArgs) (w : World)
    (fuel : nat) (pre : list str) (p : str) (post : list str) (e : exn) :
  let conn := new_connection env (userid args) (password args) in
  let files := map filename (gathered env conn args pre) in
  smb_connect env conn (file_server args) 445 = None ->
  patterns = pre ++ p :: post ->
  Forall (fun q => exists entries, listing env conn args q = Ok entries) pre ->
  listing env conn args p = Raise e ->
  (length files < fuel)%nat ->
  exists w',
    consume env fuel (find self args) w
    = Some (map (fun f => (f, []))
              (take (yielded_count (max_count args) (length files)) files),
            Ok tt, Finished, w')
    /\ stdout w' = stdout w ++ [py "Error: " ++ exc_msg e]
    /\ trace w' = trace w
                  ++ EvConnect conn (file_server args) 445
                     :: map (EvListPath conn (share_directory args) (file_path args))
                          (pre ++ [p])
                  ++ [EvClose conn]
                  ++ reports_from args (Z.of_nat (length files)) 0
                       (reported_count (max_count args) (length files))
    /\ open_sessions w' = open_sessions w.
Proof.
  intros conn files Hc Hpat Hpre Hp Hfuel.
  destruct (listed_until_failure env conn args pre p post e Hpre Hp) as (Hl & Hg & He).
  assert (Hfiles : all_files env conn args = files).
  { unfold all_files, files. rewrite Hpat, Hg. reflexivity. }
  exists (after_find env conn args w
            (reports_from args (Z.of_nat (length files)) 0
               (reported_count (max_count args) (length files)))).
  split.
  - rewrite <- Hfiles. apply (consume_find env self args w fuel Hc).
    fold conn. rewrite Hfiles. exact Hfuel.
  - unfold after_find, error_lines, session_events.
    cbn [cwd nodes open_sessions stdout trace].
    rewrite Hpat, Hl, He.
    split; [ reflexivity | ]. split; [ | reflexivity ].
    f_equal. cbn [app]. rewrite <- app_assoc. reflexivity.
Qed.

End FindClaims.

Section FindExamples.

Import FilePipelineStorage.

(** Four files are found on the demo share; with [max_count = 3]
    three are yielded. *)
Lemma find_honours_max_count_witness :
  exists items w',
    consume (Demo.env false false) 5 (find Demo.store (Demo.args 3)) Demo.world
    = Some (items, Ok tt, Finished, w')
    /\ items = map (fun f => (f, []))
                 (take (length items)
                    [py "a.docx"; py "b.docx"; py "c.pdf"; py "notes.txt"])
    /\ length items = 3%nat
    /\ find_next (Demo.env false false) Finished w' = (Ok None, Finished, w').
Proof.
  exact (find_honours_max_count (Demo.env false false) Demo.store (Demo.args 3)
           Demo.world 5 eq_refl ltac:(vm_compute; lia)).
Defined.

(** With [max_count = 3] and four files found, three items are
    yielded and two reports made. *)
Lemma find_progress_reports_witness :
  exists items w',
    consume (Demo.env false false) 5 (find Demo.store (Demo.args 3)) Demo.world
    = Some (items, Ok tt, Finished, w')
    /\ length items = 3%nat
    /\ statuses (new_events Demo.world w')
       = [mkProgress 4 1 (py "1 files loaded (0 filtered)");
          mkProgress 4 2 (py "2 files loaded (0 filtered)")].
Proof.
  exact (find_progress_reports (Demo.env false false) Demo.store (Demo.args 3)
           Demo.world 5 eq_refl eq_refl ltac:(vm_compute; lia)).
Defined.

(** C8 as stated fails: with [max_count = 1] one item is yielded and
    the reporter is never called. *)
Lemma find_last_item_not_reported :
  ~ reports_every_item (Demo.env false false) Demo.store (Demo.args 1) Demo.world 5.
Proof.
  intros H. unfold reports_every_item in H.
  remember (consume (Demo.env false false) 5 (find Demo.store (Demo.args 1)) Demo.world)
    as c eqn:E.
  vm_compute in E. subst c.
  specialize (H _ _ _ _ eq_refl). vm_compute in H. discriminate H.
Qed.

(** The listing of [*.pdf] fails: [*.docx] was listed before it, the
    seven patterns after it are not. *)
Lemma find_listing_failure_contained_witness :
  let conn := mkSMBConnection (Some (py "alice")) (Some (py "secret"))
                (py "worker-1") (py "10.2.230.40") true true in
  exists w',
    consume (Demo.env true false) 5 (find Demo.store (Demo.args 0)) Demo.world
    = Some ([(py "a.docx", []); (py "b.docx", [])], Ok tt, Finished, w')
    /\ stdout w' = [py "Error: Failed to list the share"]
    /\ trace w' = [EvConnect conn (Some (py "10.0.0.7")) 445;
                   EvListPath conn (Some (py "docs")) (Some (py "reports")) (py "*.docx");
                   EvListPath conn (Some (py "docs")) (Some (py "reports")) (py "*.pdf");
                   EvClose conn;
                   EvProgress (mkProgress 2 1 (py "1 files loaded (0 filtered)"));
                   EvProgress (mkProgress 2 2 (py "2 files loaded (0 filtered)"))]
    /\ open_sessions w' = O.
Proof.
  exact (find_listing_failure_contained (Demo.env true false) Demo.store (Demo.args 0)
           Demo.world 5 [py "*.docx"] (py "*.pdf")
           (map py ["*.xlsx"; "*.xlsm"; "*.pptx"; "*.txt"; "*.html"; "*.md"; "*.csv"]%string)
           Demo.failure eq_refl eq_refl
           ltac:(repeat constructor; eexists; reflexivity)
           eq_refl ltac:(vm_compute; lia)).
Defined.

(** C3 as stated fails: after the listing of [*.pdf] has failed,
    [*.txt] is not listed. *)
Lemma find_skips_remaining_patterns :
  ~ continues_with_remaining (Demo.env true false) Demo.store (Demo.args 0) Demo.world.
Proof.
  intros H.
  specialize (H [py "*.docx"] (py "*.pdf")
                (map py ["*.xlsx"; "*.xlsm"; "*.pptx"; "*.txt"; "*.html"; "*.md"; "*.csv"]%string)
                Demo.failure eq_refl eq_refl (py "*.txt")).
  assert (Hin : py "*.txt" ∈ map py ["*.xlsx"; "*.xlsm"; "*.pptx"; "*.txt"; "*.html"; "*.md"; "*.csv"]%string).
  { do 3 right. left. }
  specialize (H Hin). vm_compute in H.
  repeat (apply elem_of_cons in H; destruct H as [H|H]; [ discriminate H | ]).
  apply elem_of_nil in H. exact H.
Qed.

End FindExamples.

(** ** The claims about the routing and the session *)

Section RemoteClaims.

Import FilePipelineStorage.

Variable env : Env.

Lemma find_next_created self args w :
  let conn := new_connection env (userid args) (password args) in
  let files := all_files env conn args in
  find_next env (Created self args) w =
  match smb_connect env conn (file_server args) 445 with
  | Some e => (Raise e, Finished, add_trace w [EvConnect conn (file_server args) 445])
  | None =>
      (match files with [] => Ok None | f :: _ => Ok (Some (f, [])) end,
       match files with
       | [] => Finished
       | _ :: rest => Suspended args rest 0 0 (Z.of_nat (length files))
       end,
       after_find env conn args w [])
  end.
Proof.
  intros conn files. unfold find_next.
  destruct (smb_connect env conn (file_server args) 445) as [e|] eqn:Hc.
  - unfold find_body. fold conn. rewrite bind_eq. unfold SMB_connect at 1.
    rewrite bind_eq. unfold emit at 1. rewrite Hc. reflexivity.
  - rewrite (find_body_created env self args w Hc). fold conn. fold files.
    destruct files; reflexivity.
Qed.

(** C5 (amended). [find] and [getText] always go to the remote share,
    whether or not credentials are supplied: the first thing each does
    is to connect, with the credentials as given (absent ones
    included), and neither consults nor changes the local file
    system. *)
Theorem find_and_getText_always_remote (self : t) (args : FindArgs) (key : str)
    (as_bytes : option bool) (encoding : option str) (w : World) :
  let conn := new_connection env (userid args) (password args) in
  let get_text :=
    getText env self key as_bytes encoding (userid args) (password args)
      (share_directory args) (file_server args) (file_path args) in
  (exists tr, trace (find_next env (find self args) w).2
              = trace w ++ EvConnect conn (file_server args) 445 :: tr)
  /\ (exists tr, trace (get_text w).2
                 = trace w ++ EvConnect conn (file_server args) 445 :: tr)
  /\ (forall c ns,
        find_next env (find self args) (with_fs w c ns)
        = ((find_next env (find self args) w).1,
           with_fs (find_next env (find self args) w).2 c ns))
  /\ (forall c ns,
        get_text (with_fs w c ns) = ((get_text w).1, with_fs (get_text w).2 c ns)).
Proof.
  intros conn get_text. unfold find. subst get_text.
  repeat split.
  - rewrite find_next_created. fold conn.
    destruct (smb_connect env conn (file_server args) 445).
    + exists []. reflexivity.
    + eexists. reflexivity.
  - rewrite getText_spec. fold conn.
    destruct (smb_connect env conn (file_server args) 445).
    + exists []. reflexivity.
    + destruct (smb_retrieveFile env conn _ _); eexists; reflexivity.
  - intros c ns. rewrite !find_next_created. fold conn.
    destruct (smb_connect env conn (file_server args) 445); reflexivity.
  - intros c ns. rewrite !getText_spec. fold conn.
    destruct (smb_connect env conn (file_server args) 445); [ reflexivity | ].
    destruct (smb_retrieveFile env conn _ _); reflexivity.
Qed.

(** Whatever the arguments and the server, [getText] ends with an
    exception. *)
Lemma getText_raises self key as_bytes encoding userid password share_directory
    file_server file_path w :
  exists e,
    (getText env self key as_bytes encoding userid password share_directory
       file_server file_path w).1 = Raise e.
Proof.
  rewrite getText_spec.
  destruct (smb_connect env _ file_server 445); [ eexists; reflexivity | ].
  destruct (smb_retrieveFile env _ _ _); eexists; reflexivity.
Qed.

(** C4 (amended). When [getText] ends with an error after it has
    connected (the retrieval or the extraction failing), the error
    goes to the caller and the session opened at the start of the
    call is left open: no [close] is made on it. *)
Theorem getText_error_leaves_session_open (self : t) (key : str)
    (as_bytes : option bool) (encoding : option str)
    (userid password share_directory file_server file_path : option str)
    (w : World) (e : exn) :
  let conn := new_connection env userid password in
  let r := getText env self key as_bytes encoding userid password share_directory
             file_server file_path w in
  smb_connect env conn file_server 445 = None ->
  r.1 = Raise e ->
  open_sessions r.2 = S (open_sessions w)
  /\ Forall (fun ev => is_close ev = false) (new_events w r.2).
Proof.
  intros conn r Hc Hr. subst r. rewrite getText_spec in *. fold conn in Hr |- *.
  rewrite Hc in *.
  destruct (smb_retrieveFile env conn _ _); cbn [fst snd] in *.
  - split; [ reflexivity | ].
    erewrite new_events_app by reflexivity. repeat constructor.
  - split; [ reflexivity | ].
    erewrite new_events_app by reflexivity. repeat constructor.
Qed.

End RemoteClaims.

Section RemoteExamples.

Import FilePipelineStorage.

(** The retrieval fails on the demo share: the error reaches the
    caller and one session stays open. *)
Lemma getText_error_leaves_session_open_witness :
  let r := getText (Demo.env false true) Demo.store (py "report.docx") None None
             (Some (py "alice")) (Some (py "secret")) (Some (py "docs"))
             (Some (py "10.0.0.7")) (Some (py "reports")) Demo.world in
  open_sessions r.2 = 1%nat
  /\ Forall (fun ev => is_close ev = false) (new_events Demo.world r.2).
Proof.
  exact (getText_error_leaves_session_open (Demo.env false true) Demo.store
           (py "report.docx") None None
           (Some (py "alice")) (Some (py "secret")) (Some (py "docs"))
           (Some (py "10.0.0.7")) (Some (py "reports")) Demo.world
           (mkError "OperationFailure" (py "Failed to retrieve the file"))
           eq_refl eq_refl).
Defined.

(** C4 as stated fails: the retrieval fails and the session is not
    closed. *)
Lemma getText_leaks_session_on_failure :
  ~ closes_session (Demo.env false true) Demo.store (py "report.docx")
      (Some (py "alice")) (Some (py "secret")) (Some (py "docs"))
      (Some (py "10.0.0.7")) (Some (py "reports")) Demo.world.
Proof. unfold closes_session. vm_compute. discriminate. Qed.

(** C5 as stated fails: called without credentials, [find] connects
    all the same. *)
Lemma find_without_credentials_connects :
  ~ local_without_credentials (Demo.env false false) Demo.store Demo.bare_args Demo.world.
Proof.
  intros H. specialize (H eq_refl eq_refl eq_refl eq_refl eq_refl).
  vm_compute in H. inversion H as [|? ? Hhd _]. discriminate Hhd.
Qed.

(** C2: a key with an extension outside the table, retrieved without
    error. [getText] raises [NameError] at the bare name [func_dict]
    where the claim has it return the empty text; the session stays
    open. *)
Theorem getText_unknown_extension_raises_NameError :
  let r := getText (Demo.env false false) Demo.store (py "notes.xyz") None None
             (Some (py "alice")) (Some (py "secret")) (Some (py "docs"))
             (Some (py "10.0.0.7")) (Some (py "reports")) Demo.world in
  func_dict (Demo.env false false) !! lower (drop 1 (splitext (py "notes.xyz")).2) = None
  /\ r.1 = Raise (mkError "NameError" (py "name 'func_dict' is not defined"))
  /\ open_sessions r.2 = 1%nat.
Proof. vm_compute. auto. Qed.

End RemoteExamples.

(** ** The docx rule *)

Lemma replace_two_spaces (s : str) :
  replace_char IDEOGRAPHIC_SPACE [] (replace_char SPACE [] s) = strip_spaces s.
Proof.
  unfold strip_spaces, replace_char.
  induction s as [|c s IH]; [ reflexivity | ].
  cbn [flat_map]. destruct (N.eqb_spec c SPACE) as [->|Hs].
  - cbn [app]. rewrite IH. rewrite list.filter_cons_False; [ reflexivity | ].
    intros [H _]. apply H. reflexivity.
  - cbn [app flat_map]. destruct (N.eqb_spec c IDEOGRAPHIC_SPACE) as [->|Hi].
    + cbn [app]. rewrite IH. rewrite list.filter_cons_False; [ reflexivity | ].
      intros [_ H]. apply H. reflexivity.
    + cbn [app]. rewrite IH. rewrite list.filter_cons_True by (split; assumption).
      reflexivity.
Qed.

Section LocalClaims.

Import FilePipelineStorage.

Variable env : Env.

(** C6 (amended). The docx rule returns the texts of all paragraphs in
    document order, joined with no separator, with every half-width
    and full-width space removed. *)
Theorem get_text_from_word_strips_spaces (file : bytes) (paragraphs : list Paragraph) :
  docx_Document env file = Ok paragraphs ->
  get_text_from_word env file = Ok (strip_spaces (concat (map par_text paragraphs))).
Proof.
  intros H. unfold get_text_from_word. rewrite H, replace_two_spaces. reflexivity.
Qed.

(** C10. The store returned by [child(name)] for a name that is not
    [None] has the encoding ["utf-8"], whatever the encoding of the
    parent. *)
Theorem child_encoding_is_default (self : t) (name : str) (w : World)
    (store : t) (w' : World) :
  child self (Some name) w = (Ok store, w') ->
  _encoding store = py "utf-8".
Proof.
  unfold child, __init__. rewrite bind_eq.
  destruct (Path_mkdir _ w) as [[[]|e] w1]; unfold ret; intros H;
    inversion H; reflexivity.
Qed.

End LocalClaims.

Section LocalExamples.

Import FilePipelineStorage.

(** The rules on the documents of the demo share. *)
Example powerpoint_text :
  get_text_from_powerpoint (Demo.env false false) (py "PK") = Ok (py "abcd").
Proof. reflexivity. Qed.

Example excel_text :
  get_text_from_excel (Demo.env false false) (py "PK")
  = Ok (py "Sheet1" ++ [LF] ++ py "xy" ++ [LF; LF; LF]).
Proof. reflexivity. Qed.

Example pdf_text_is_unbound :
  get_text_from_pdf (Demo.env false false) (py "%PDF")
  = Raise (mkError "NameError" (py "name 'extract_text_to_fp' is not defined")).
Proof. reflexivity. Qed.

Example splitext_examples :
  splitext (py "reports/Q1.final.DOCX") = (py "reports/Q1.final", py ".DOCX")
  /\ splitext (py "a.b/.bashrc") = (py "a.b/.bashrc", [])
  /\ lower (drop 1 (splitext (py "reports/Q1.final.DOCX")).2) = py "docx".
Proof. repeat split; reflexivity. Qed.

Lemma get_text_from_word_strips_spaces_witness :
  get_text_from_word (Demo.env false false) (py "PK") = Ok (py "abcd").
Proof.
  exact (get_text_from_word_strips_spaces (Demo.env false false) (py "PK")
           [mkParagraph (py "a b"); mkParagraph (py "c" ++ [IDEOGRAPHIC_SPACE] ++ py "d")]
           eq_refl).
Defined.

(** C6 as stated fails: the paragraphs ["a b"] and ["c　d"] give
    ["abcd"]. *)
Lemma get_text_from_word_not_verbatim :
  ~ word_text_verbatim (Demo.env false false) (py "PK").
Proof.
  intros H. specialize (H _ eq_refl). vm_compute in H. discriminate H.
Qed.

(** A parent store with the encoding ["latin-1"]: its child has
    ["utf-8"]. *)
Lemma child_encoding_is_default_witness :
  exists store w',
    child (mk (py "out") (py "latin-1")) (Some (py "sub")) Demo.world = (Ok store, w')
    /\ _encoding store = py "utf-8".
Proof.
  destruct (child (mk (py "out") (py "latin-1")) (Some (py "sub")) Demo.world)
    as [[store|e] w'] eqn:E; [ | vm_compute in E; discriminate E ].
  exists store, w'.
  split; [ reflexivity | exact (child_encoding_is_default _ _ _ _ _ E) ].
Defined.

End LocalExamples.

(** ** The local store: [set] then [get] *)

Lemma write_newlines_id (s : str) : write_newlines s = s.
Proof.
  unfold write_newlines, replace_char, linesep.
  induction s as [|c s IH]; [ reflexivity | ].
  cbn [flat_map]. rewrite IH. destruct (N.eqb_spec c LF) as [->|_]; reflexivity.
Qed.

Lemma universal_newlines_id (s : str) : CR ∉ s -> universal_newlines s = s.
Proof.
  induction s as [|c s IH]; intros H; [ reflexivity | ].
  apply not_elem_of_cons in H. destruct H as [Hc Hs].
  cbn [universal_newlines]. destruct (N.eqb_spec c CR) as [->|_]; [ congruence | ].
  rewrite IH by exact Hs. reflexivity.
Qed.

Lemma lookup_node_insert_ne ns loc n cur :
  cur <> loc -> lookup_node (<[loc := n]> ns) cur = lookup_node ns cur.
Proof.
  intros H. unfold lookup_node. case_bool_decide; [ reflexivity | ].
  apply lookup_insert_ne. congruence.
Qed.

Lemma lookup_node_insert_eq ns loc n :
  loc <> [] -> lookup_node (<[loc := n]> ns) loc = Some n.
Proof.
  intros H. unfold lookup_node. rewrite bool_decide_eq_false_2 by exact H.
  apply lookup_insert_eq.
Qed.

Lemma not_dir_not_root ns loc : lookup_node ns loc <> Some Dir -> loc <> [].
Proof. intros H ->. apply H. reflexivity. Qed.

(** Writing a file where the walk ends does not change the walk. *)
Lemma walk_insert_file ns loc content segs : forall cur,
  walk ns cur segs = Some loc ->
  lookup_node ns loc <> Some Dir ->
  walk (<[loc := File content]> ns) cur segs = Some loc.
Proof.
  induction segs as [|seg rest IH]; intros cur Hw Hl; cbn [walk] in *.
  - exact Hw.
  - destruct (lookup_node ns cur) as [[b|]|] eqn:Hcur; try discriminate Hw.
    rewrite lookup_node_insert_ne by (intros ->; congruence).
    rewrite Hcur. apply IH; assumption.
Qed.

(** The world after [content] was written at [loc]. *)
Lemma namei_written w loc content p :
  namei w p = Some loc ->
  lookup_node (nodes w) loc <> Some Dir ->
  namei (written w loc content) p = Some loc.
Proof. unfold namei, written. cbn [cwd nodes]. apply walk_insert_file. Qed.

Ltac run_io :=
  cbv beta iota zeta
      delta [bind ask ret raise lift set_nodes text_layer write read h_loc h_codec
             cwd nodes open_sessions stdout trace].

Section StoreLemmas.

Import FilePipelineStorage.

Variable env : Env.

(** What a [set] that ended without error has done. *)
Lemma set_ok_inv self key v encoding w w' :
  set env self key v encoding w = (Ok tt, w') ->
  exists loc content,
    namei w (join_path (_root_dir self) key) = Some loc
    /\ lookup_node (nodes w) loc <> Some Dir
    /\ w' = written w loc content
    /\ match v with
       | VBytes b => content = b
       | VStr s =>
           exists c, codecs_lookup env (str_or encoding (_encoding self)) = Some c
                     /\ encode c (write_newlines s) = Ok content
       | _ => False
       end.
Proof.
  unfold set. set (p := join_path (_root_dir self) key).
  set (enc := str_or encoding (_encoding self)).
  destruct w as [c ns k out tr]. unfold open_, written.
  rewrite !bind_eq. unfold ask at 1.
  destruct (namei _ p) as [loc|] eqn:Hn; [ | discriminate ].
  cbn [cwd nodes open_sessions stdout trace].
  assert (Hins : forall content : bytes,
             <[loc := File content]> (<[loc := File []]> ns) = <[loc := File content]> ns)
    by (intros; apply insert_insert_eq).
  destruct v as [b|s| |];
    (destruct (lookup_node ns loc) as [[old|]|] eqn:Hl; [ | discriminate | ]);
    run_io.
  1-2: intros H; inversion H; exists loc, b;
       rewrite Hl, Hins; repeat split; discriminate.
  1-2: destruct (codecs_lookup env enc) as [cd|] eqn:Hcd; [ | discriminate ];
       destruct (encode cd (write_newlines s)) as [content|e] eqn:Henc; [ | discriminate ];
       intros H; inversion H; exists loc, content;
       rewrite Hl, Hins; repeat split; try discriminate;
       exists cd; split; [ reflexivity | exact Henc ].
  all: destruct (codecs_lookup env enc) as [cd|]; discriminate.
Qed.

(** C1 (amended). What [set] has written under a key, [get] returns
    for that key, read the way it was written (as bytes for a bytes
    value, as text in the same encoding for a text value), provided a
    text value contains no carriage return and the codec of the
    encoding decodes what it encodes. *)
Theorem set_then_get_round_trip (self : t) (key : str) (v : value)
    (encoding : option str) (w w' : World) :
  set env self key v encoding w = (Ok tt, w') ->
  round_trip_safe env (str_or encoding (_encoding self)) v ->
  get env self key (as_bytes_of v) encoding w' = (Ok v, w').
Proof.
  intros Hset Hsafe.
  destruct (set_ok_inv _ _ _ _ _ _ Hset) as (loc & content & Hn & Hl & -> & Hv).
  pose proof (namei_written w loc content _ Hn Hl) as Hn'.
  pose proof (lookup_node_insert_eq (nodes w) loc (File content) (not_dir_not_root _ _ Hl))
    as Hl'.
  unfold get, has. set (p := join_path (_root_dir self) key) in *.
  set (enc := str_or encoding (_encoding self)) in *.
  rewrite bind_eq. unfold ospath_exists at 1. rewrite Hn'.
  change (nodes (written w loc content)) with (<[loc := File content]> (nodes w)).
  rewrite Hl'. rewrite bool_decide_eq_true_2 by (eexists; reflexivity).
  unfold _read_file, open_. rewrite !bind_eq. unfold ask at 1. rewrite Hn'.
  change (nodes (written w loc content)) with (<[loc := File content]> (nodes w)).
  rewrite Hl'.
  assert (Hread : <[loc := File content]> (nodes w) !! loc = Some (File content))
    by apply lookup_insert_eq.
  destruct v as [b|s| |]; try contradiction.
  - subst content. cbn [as_bytes_of truthy]. run_io.
    unfold written. cbn [nodes]. rewrite Hread. reflexivity.
  - destruct Hv as (cd & Hcd & Henc). destruct Hsafe as [Hcr Hrt].
    cbn [as_bytes_of truthy]. fold enc. run_io. rewrite Hcd.
    unfold written. cbn [nodes]. rewrite Hread.
    rewrite (Hrt cd Hcd _ _ Henc), write_newlines_id, universal_newlines_id by exact Hcr.
    reflexivity.
Qed.

End StoreLemmas.

(** ** UTF-8 decodes what it encodes *)

Module utf_8_facts.

Import utf_8.
Local Open Scope N_scope.

Ltac decide_tests :=
  repeat match goal with
    | |- context [?a <? ?b] =>
        destruct (N.ltb_spec a b); try lia
    | |- context [?a <=? ?b] =>
        destruct (N.leb_spec a b); try lia
    end.

(** [c = 64 * q + r] with [r < 64], as atoms for [lia]. *)
Ltac euclid c q r :=
  pose proof (N.div_mod c 64 ltac:(lia));
  pose proof (N.mod_lt c 64 ltac:(lia));
  set (q := c / 64) in *; set (r := c mod 64) in *; clearbody q r.

Lemma decode_encode_char (c : N) (bc : bytes) (rest : bytes) (s : str) :
  encode_char c = Some bc ->
  decode_bytes rest = Some s ->
  decode_bytes (bc ++ rest) = Some (c :: s).
Proof.
  unfold encode_char. intros Hc Hrest.
  replace (c / 262144) with (c / 64 / 64 / 64) in Hc
    by (rewrite !N.Div0.div_div; reflexivity).
  replace (c / 4096) with (c / 64 / 64) in Hc
    by (rewrite !N.Div0.div_div; reflexivity).
  destruct (N.ltb_spec c 128) as [H1|H1].
  { inversion Hc; subst. cbn [app decode_bytes].
    destruct (N.ltb_spec c 128); [ | lia ]. rewrite Hrest. reflexivity. }
  destruct (N.ltb_spec c 2048) as [H2|H2].
  { inversion Hc; subst. clear Hc. euclid c q1 r1.
    cbn [app decode_bytes]. unfold is_cont.
    decide_tests. cbn [andb]. rewrite Hrest. cbn [option_map]. do 2 f_equal. lia. }
  destruct (N.ltb_spec c 65536) as [H3|H3].
  { destruct ((55296 <=? c) && (c <=? 57343)) eqn:Hsur; [ discriminate | ].
    inversion Hc; subst. clear Hc. cbn [app decode_bytes]. unfold is_cont.
    assert (Hval : (224 + c / 64 / 64 - 224) * 4096 + (128 + (c / 64) mod 64 - 128) * 64
                   + (128 + c mod 64 - 128) = c).
    { euclid c q1 r1. euclid q1 q2 r2. lia. }
    rewrite Hval, Hsur. clear Hval Hsur.
    euclid c q1 r1. euclid q1 q2 r2.
    decide_tests. cbn [andb negb]. rewrite Hrest. reflexivity. }
  destruct (N.ltb_spec c 1114112) as [H4|H4]; [ | discriminate ].
  inversion Hc; subst. clear Hc. cbn [app decode_bytes]. unfold is_cont.
  assert (Hval : (240 + c / 64 / 64 / 64 - 240) * 262144
                 + (128 + (c / 64 / 64) mod 64 - 128) * 4096
                 + (128 + (c / 64) mod 64 - 128) * 64 + (128 + c mod 64 - 128) = c).
  { euclid c q1 r1. euclid q1 q2 r2. euclid q2 q3 r3. lia. }
  rewrite Hval. clear Hval.
  euclid c q1 r1. euclid q1 q2 r2. euclid q2 q3 r3.
  decide_tests. cbn [andb]. rewrite Hrest. reflexivity.
Qed.

Lemma decode_encode (s : str) : forall b,
  encode_chars s = Some b -> decode_bytes b = Some s.
Proof.
  induction s as [|c s IH]; intros b H; cbn [encode_chars] in H.
  - inversion H. reflexivity.
  - destruct (encode_char c) as [bc|] eqn:Hc; [ | discriminate ].
    destruct (encode_chars s) as [bs|]; [ | discriminate ].
    inversion H; subst. apply decode_encode_char; [ exact Hc | apply IH; reflexivity ].
Qed.

End utf_8_facts.

Lemma utf_8_round_trips (s : str) (b : bytes) :
  encode utf_8.codec s = Ok b -> decode utf_8.codec b = Ok s.
Proof.
  unfold utf_8.codec. cbn [encode decode].
  destruct (utf_8.encode_chars s) as [b'|] eqn:He; [ | discriminate ].
  intros H. inversion H; subst. rewrite (utf_8_facts.decode_encode _ _ He). reflexivity.
Qed.

Lemma demo_codec_round_trips pdf_fails retrieve_fails name :
  codec_round_trips (Demo.env pdf_fails retrieve_fails) name.
Proof.
  unfold codec_round_trips. cbn [codecs_lookup Demo.env]. unfold Demo.codecs.
  intros c Hc. destruct (str_eqb name (py "utf-8")); [ | discriminate ].
  inversion Hc; subst. apply utf_8_round_trips.
Qed.

Section StoreExamples.

Import FilePipelineStorage.

(** A text with a line feed and a non-ASCII letter, written and read
    back in the default encoding. *)
Lemma set_then_get_round_trip_witness :
  let text := VStr (py "h" ++ [233%N] ++ py "llo" ++ [LF]) in
  exists w',
    set (Demo.env false false) Demo.store (py "notes.txt") text None Demo.world
    = (Ok tt, w')
    /\ get (Demo.env false false) Demo.store (py "notes.txt") (Some false) None w'
       = (Ok text, w').
Proof.
  intros text.
  destruct (set (Demo.env false false) Demo.store (py "notes.txt") text None Demo.world)
    as [[[]|e] w'] eqn:E; [ | vm_compute in E; discriminate E ].
  exists w'. split; [ reflexivity | ].
  apply (set_then_get_round_trip (Demo.env false false) Demo.store (py "notes.txt")
           text None Demo.world w' E).
  split; [ | apply demo_codec_round_trips ].
  apply (bool_decide_unpack _). vm_compute. exact I.
Defined.

(** C1 as stated fails: the text ["a\rb"] is read back as ["a\nb"]. *)
Lemma set_get_carriage_return :
  ~ set_get_round_trip (Demo.env false false) Demo.store (py "notes.txt")
      (VStr (py "a" ++ [CR] ++ py "b")) None Demo.world.
Proof.
  intros H. unfold set_get_round_trip in H.
  remember (set (Demo.env false false) Demo.store (py "notes.txt")
              (VStr (py "a" ++ [CR] ++ py "b")) None Demo.world) as r eqn:E.
  vm_compute in E. subst r.
  specialize (H _ eq_refl). vm_compute in H. discriminate H.
Qed.

End StoreExamples.

(** ** More on the local store *)

Lemma walk_delete_file ns loc content segs : forall cur loc',
  walk ns cur segs = Some loc' ->
  lookup_node ns loc = Some (File content) ->
  walk (base.delete loc ns) cur segs = Some loc'.
Proof.
  induction segs as [|seg rest IH]; intros cur loc' Hw Hl; cbn [walk] in *.
  - exact Hw.
  - destruct (lookup_node ns cur) as [[b|]|] eqn:Hcur; try discriminate Hw.
    assert (Hne : cur <> loc) by (intros ->; congruence).
    assert (Hcur' : lookup_node (base.delete loc ns) cur = Some Dir).
    { unfold lookup_node in Hcur |- *.
      destruct (bool_decide (cur = [])); [ reflexivity | ].
      rewrite lookup_delete_ne by congruence. exact Hcur. }
    rewrite Hcur'. apply IH; assumption.
Qed.

Lemma lookup_node_delete_eq ns loc :
  loc <> [] -> lookup_node (base.delete loc ns) loc = None.
Proof.
  intros H. unfold lookup_node. rewrite bool_decide_eq_false_2 by exact H.
  apply lookup_delete_eq.
Qed.

Lemma ospath_exists_pure p w : exists b, ospath_exists p w = (Ok b, w).
Proof. eexists. reflexivity. Qed.

Lemma ospath_exists_str_pure s w : exists b, ospath_exists_str s w = (Ok b, w).
Proof. eexists. reflexivity. Qed.

Section StoreExtras.

Import FilePipelineStorage.

Variable env : Env.

(** X1. A key that names nothing, neither under the root nor as a
    path of its own, is not an error for [get]: it returns [None] and
    leaves the world as it was. *)
Theorem get_missing_key_returns_None (self : t) (key : str)
    (as_bytes : option bool) (encoding : option str) (w : World) :
  names_nothing w (join_path (_root_dir self) key) ->
  names_nothing w (of_str key) ->
  get env self key as_bytes encoding w = (Ok VNone, w).
Proof.
  unfold names_nothing, get, has. intros H1 H2.
  rewrite bind_eq. unfold ospath_exists at 1.
  destruct (namei w (join_path (_root_dir self) key)) as [loc|].
  - rewrite H1. rewrite bool_decide_eq_false_2 by (intros [x Hx]; discriminate Hx).
    rewrite bind_eq. unfold ospath_exists_str.
    destruct key as [|c key]; [ reflexivity | ].
    destruct (namei w (of_str (c :: key))) as [loc2|]; [ rewrite H2 | ]; reflexivity.
  - rewrite bind_eq. unfold ospath_exists_str.
    destruct key as [|c key]; [ reflexivity | ].
    destruct (namei w (of_str (c :: key))) as [loc2|]; [ rewrite H2 | ]; reflexivity.
Qed.

(** X2. After a [set] that ended without error, [has] of the same key
    is true. *)
Theorem has_after_set (self : t) (key : str) (v : value) (encoding : option str)
    (w w' : World) :
  set env self key v encoding w = (Ok tt, w') ->
  has self key w' = (Ok true, w').
Proof.
  intros Hset.
  destruct (set_ok_inv _ _ _ _ _ _ _ Hset) as (loc & content & Hn & Hl & -> & _).
  unfold has, ospath_exists.
  rewrite (namei_written w loc content _ Hn Hl).
  change (nodes (written w loc content)) with (<[loc := File content]> (nodes w)).
  rewrite (lookup_node_insert_eq _ _ _ (not_dir_not_root _ _ Hl)).
  rewrite bool_decide_eq_true_2 by (eexists; reflexivity). reflexivity.
Qed.

(** X3. After a [delete] that ended without error, [has] of the same
    key is false, whether the key was there or not. *)
Theorem has_after_delete (self : t) (key : str) (w w' : World) :
  delete self key w = (Ok tt, w') ->
  has self key w' = (Ok false, w').
Proof.
  unfold delete. rewrite bind_eq.
  destruct (has self key w) as [[b|e] w1] eqn:Hhas.
  2: { unfold has, ospath_exists in Hhas. discriminate Hhas. }
  assert (w1 = w) by (unfold has, ospath_exists in Hhas; congruence). subst w1.
  destruct b.
  - unfold os_remove. rewrite bind_eq. unfold ask at 1.
    unfold has, ospath_exists in Hhas |- *.
    set (p := join_path (_root_dir self) key) in *.
    destruct (namei w p) as [loc|] eqn:Hn; [ | discriminate ].
    destruct (lookup_node (nodes w) loc) as [[content|]|] eqn:Hl; try discriminate.
    unfold set_nodes. intros H. inversion H; subst. clear H.
    unfold namei in *. cbn [cwd nodes].
    rewrite (walk_delete_file _ _ _ _ _ _ Hn Hl).
    rewrite lookup_node_delete_eq by (intros ->; discriminate Hl).
    rewrite bool_decide_eq_false_2 by (intros [x Hx]; discriminate Hx). reflexivity.
  - unfold ret. intros H. inversion H; subst. exact Hhas.
Qed.

(** X4. [delete] of a key that is not there does nothing and raises
    nothing. *)
Theorem delete_missing_is_noop (self : t) (key : str) (w : World) :
  names_nothing w (join_path (_root_dir self) key) ->
  delete self key w = (Ok tt, w).
Proof.
  unfold names_nothing, delete, has. intros H.
  rewrite bind_eq. unfold ospath_exists.
  destruct (namei w (join_path (_root_dir self) key)) as [loc|]; [ | reflexivity ].
  rewrite H. rewrite bool_decide_eq_false_2 by (intros [x Hx]; discriminate Hx).
  reflexivity.
Qed.

(** X5. [get] only reads: whatever it returns or raises, the world
    after it is the world before it. *)
Theorem get_changes_nothing (self : t) (key : str) (as_bytes : option bool)
    (encoding : option str) (w : World) :
  (get env self key as_bytes encoding w).2 = w.
Proof.
  assert (Hread : forall p, (_read_file env self p as_bytes encoding w).2 = w).
  { intros p. unfold _read_file, open_. rewrite !bind_eq. unfold ask at 1.
    destruct (namei w p) as [loc|]; [ | reflexivity ].
    destruct (truthy as_bytes); cbn [text_layer];
      (destruct (lookup_node (nodes w) loc) as [[content|]|]; [ | reflexivity | reflexivity ]).
    - rewrite !bind_eq. unfold ret at 1. unfold ret at 1. unfold read.
      rewrite bind_eq. unfold ask at 1. cbn [h_loc h_codec].
      destruct (nodes w !! loc) as [[c|]|]; reflexivity.
    - rewrite !bind_eq.
      destruct (codecs_lookup env (str_or encoding (_encoding self))) as [cd|];
        [ | reflexivity ].
      unfold ret at 1. unfold ret at 1. unfold read.
      rewrite bind_eq. unfold ask at 1. cbn [h_loc h_codec].
      destruct (nodes w !! loc) as [[c|]|]; try reflexivity.
      destruct (decode cd c); reflexivity. }
  unfold get, has. rewrite bind_eq.
  destruct (ospath_exists_pure (join_path (_root_dir self) key) w) as [b ->].
  destruct b; [ apply Hread | ].
  rewrite bind_eq. destruct (ospath_exists_str_pure key w) as [b ->].
  destruct b; [ apply Hread | reflexivity ].
Qed.


End StoreExtras.

(** ** Construction, children and paths *)

Lemma lookup_node_kept (ns ns' : gmap (list str) node) :
  (forall loc n, ns !! loc = Some n -> ns' !! loc = Some n) ->
  forall loc n, lookup_node ns loc = Some n -> lookup_node ns' loc = Some n.
Proof.
  intros H loc n. unfold lookup_node.
  destruct (bool_decide (loc = [])); [ auto | apply H ].
Qed.

(** What [mkdirs] makes: the walk along [segs] now succeeds and ends in
    a directory, and every node that was there is still there. *)
Lemma mkdirs_spec segs : forall (ns : gmap (list str) node) cur ns',
  mkdirs ns cur segs = Some ns' ->
  lookup_node ns cur = Some Dir ->
  walk ns' cur segs = Some (resolve_from cur segs)
  /\ lookup_node ns' (resolve_from cur segs) = Some Dir
  /\ (forall loc n, ns !! loc = Some n -> ns' !! loc = Some n).
Proof.
  induction segs as [|seg rest IH]; intros ns cur ns' Hm Hcur.
  - cbn in Hm. inversion Hm; subst. cbn. auto.
  - cbn [mkdirs] in Hm. cbn [walk]. unfold resolve_from. cbn [fold_left].
    fold (resolve_from (step cur seg) rest).
    destruct (lookup_node ns (step cur seg)) as [[content|]|] eqn:Hnext.
    + discriminate Hm.
    + destruct (IH _ _ _ Hm Hnext) as (Hw & Hd & Hk).
      rewrite (lookup_node_kept _ _ Hk _ _ Hcur). auto.
    + assert (Hne : step cur seg <> []) by (intros E; rewrite E in Hnext; discriminate Hnext).
      assert (Hk1 : forall loc n, ns !! loc = Some n
                                  -> <[step cur seg := Dir]> ns !! loc = Some n).
      { intros loc n Hloc. destruct (decide (loc = step cur seg)) as [->|Hd].
        - unfold lookup_node in Hnext.
          rewrite bool_decide_eq_false_2 in Hnext by exact Hne. congruence.
        - rewrite lookup_insert_ne by congruence. exact Hloc. }
      destruct (IH _ _ _ Hm (lookup_node_insert_eq _ _ _ Hne)) as (Hw & Hd & Hk).
      rewrite (lookup_node_kept _ _ Hk _ _ (lookup_node_kept _ _ Hk1 _ _ Hcur)).
      split; [ exact Hw | ]. split; [ exact Hd | ]. auto.
Qed.

Section InitExtras.

Import FilePipelineStorage.

(** X7. A store that was constructed has its root directory: the root
    path names a directory in the world after [__init__], and the
    nodes that were there before are still there, unchanged. The root
    is [root_dir] or [""], the encoding [encoding] or ["utf-8"]. *)
Theorem init_creates_root (root_dir encoding : option str) (w : World)
    (self : t) (w' : World) :
  __init__ root_dir encoding w = (Ok self, w') ->
  self = mk (str_or root_dir []) (str_or encoding (py "utf-8"))
  /\ (exists loc, namei w' (of_str (_root_dir self)) = Some loc
                  /\ lookup_node (nodes w') loc = Some Dir)
  /\ (forall loc n, nodes w !! loc = Some n -> nodes w' !! loc = Some n).
Proof.
  unfold __init__. rewrite bind_eq. unfold Path_mkdir at 1. rewrite bind_eq.
  unfold ask at 1. cbn [_root_dir].
  set (p := of_str (str_or root_dir [])).
  destruct (lookup_node (nodes w) (if is_absolute p then [] else cwd w))
    as [[content|]|] eqn:Hstart; try discriminate.
  destruct (mkdirs (nodes w) (if is_absolute p then [] else cwd w) (parts p))
    as [ns'|] eqn:Hm; [ | discriminate ].
  unfold set_nodes, ret. intros H. inversion H; subst. clear H.
  destruct (mkdirs_spec _ _ _ _ Hm Hstart) as (Hw & Hd & Hk).
  split; [ reflexivity | ]. split; [ | exact Hk ].
  exists (resolve_from (if is_absolute p then [] else cwd w) (parts p)).
  unfold namei. cbn [cwd nodes]. auto.
Qed.

End InitExtras.

Lemma split_on_app_sep (w r : str) :
  SLASH ∉ w -> split_on SLASH (w ++ SLASH :: r) = w :: split_on SLASH r.
Proof.
  induction w as [|c w IH]; intros Hw; cbn [app split_on].
  - rewrite N.eqb_refl. reflexivity.
  - apply not_elem_of_cons in Hw. destruct Hw as [Hc Hw].
    destruct (N.eqb_spec c SLASH) as [->|_]; [ congruence | ].
    rewrite IH by exact Hw. reflexivity.
Qed.

Lemma split_on_join (w : str) (ws : list str) :
  Forall (fun v => SLASH ∉ v) (w :: ws) ->
  split_on SLASH (join [SLASH] (w :: ws)) = w :: ws.
Proof.
  revert w. induction ws as [|v ws IH]; intros w H; inversion H as [|? ? Hw Hws]; subst.
  - cbn [join flat_map]. rewrite app_nil_r. apply split_on_single. exact Hw.
  - cbn [join flat_map app]. rewrite split_on_app_sep by exact Hw.
    f_equal. apply (IH v Hws).
Qed.

Lemma filter_segments (ps : list str) :
  Forall (fun w => (SLASH ∉ w) /\ is_segment w = true) ps ->
  filter (fun w => is_segment w = true) ps = ps.
Proof.
  induction 1 as [|w ps [_ Hw] _ IH]; [ reflexivity | ].
  rewrite list.filter_cons_True by exact Hw. rewrite IH. reflexivity.
Qed.

Lemma segment_head (w : str) :
  (SLASH ∉ w) /\ is_segment w = true -> exists c r, w = c :: r /\ c <> SLASH.
Proof.
  intros [Hs Hseg]. destruct w as [|c r]; [ discriminate Hseg | ].
  exists c, r. split; [ reflexivity | ]. intros ->. apply Hs. left.
Qed.

Lemma splitroot_relative (c : N) (r : str) : c <> SLASH -> splitroot (c :: r) = NoRoot.
Proof.
  intros Hc. apply N.eqb_neq in Hc.
  destruct r as [|b [|d r]]; cbn [splitroot]; rewrite Hc; reflexivity.
Qed.

Lemma splitroot_one (c : N) (r : str) : c <> SLASH -> splitroot (SLASH :: c :: r) = Root1.
Proof.
  intros Hc. apply N.eqb_neq in Hc.
  destruct r as [|d r]; cbn [splitroot]; rewrite N.eqb_refl, Hc; reflexivity.
Qed.

Lemma splitroot_two (c : N) (r : str) :
  c <> SLASH -> splitroot (SLASH :: SLASH :: c :: r) = Root2.
Proof.
  intros Hc. apply N.eqb_neq in Hc.
  cbn [splitroot]. rewrite !N.eqb_refl, Hc. reflexivity.
Qed.

(** Parsing the string of a well-formed path gives the path back. *)
Lemma of_str_to_str (p : Path) : well_formed p -> of_str (to_str p) = p.
Proof.
  destruct p as [r ps]. unfold well_formed. cbn [parts]. intros Hwf.
  assert (Hns : Forall (fun v => SLASH ∉ v) ps)
    by (eapply Forall_impl; [ exact Hwf | intros ? [? _]; assumption ]).
  destruct ps as [|w ws].
  - destruct r; reflexivity.
  - assert (Hw : (SLASH ∉ w) /\ is_segment w = true) by (inversion Hwf; assumption).
    destruct (segment_head w Hw) as (c & tl & -> & Hc).
    pose proof (split_on_join _ _ Hns) as Hsplit.
    pose proof (filter_segments _ Hwf) as Hfilter.
    unfold of_str, to_str. cbn [path_root parts].
    destruct r; cbn [root_str app].
    + rewrite Hsplit, Hfilter. f_equal.
      cbn [join app]. apply splitroot_relative. exact Hc.
    + cbn [split_on]. rewrite N.eqb_refl, Hsplit.
      rewrite list.filter_cons_False by (intros H; discriminate H).
      rewrite Hfilter. f_equal. cbn [join app]. apply splitroot_one. exact Hc.
    + cbn [split_on]. rewrite N.eqb_refl, Hsplit.
      rewrite !list.filter_cons_False by (intros H; discriminate H).
      rewrite Hfilter. f_equal. cbn [join app]. apply splitroot_two. exact Hc.
Qed.

Lemma well_formed_of_str (s : str) : well_formed (of_str s).
Proof. apply of_str_parts_segments. Qed.

Lemma well_formed_truediv (p q : Path) :
  well_formed p -> well_formed q -> well_formed (p </> q).
Proof.
  unfold well_formed, truediv. intros Hp Hq.
  destruct (is_absolute q); [ exact Hq | ].
  cbn [parts]. apply Forall_app. auto.
Qed.

Section PathExtras.

Import FilePipelineStorage.

(** X8. [Path(str(Path(s)))] is [Path(s)]: the string of a parsed path
    parses to the same path. *)
Theorem of_str_to_str_of_str (s : str) : of_str (to_str (of_str s)) = of_str s.
Proof. apply of_str_to_str, well_formed_of_str. Qed.

(** X9. [join_path(root, key)] is [Path(root) / Path(key)]: taking the
    key apart into parent and name changes nothing. So an absolute
    key replaces the root altogether, and a relative key is appended
    to it segment by segment. *)
Theorem join_path_is_truediv (root key : str) :
  join_path root key
  = if is_absolute (of_str key) then of_str key
    else mkPath (path_root (of_str root)) (parts (of_str root) ++ parts (of_str key)).
Proof. rewrite join_path_truediv. reflexivity. Qed.

(** X10. The store returned by [child(name)] resolves every key below
    [root/name]: its joined path for a key is
    [Path(root) / Path(name) / Path(key)]. *)
Theorem child_scopes_keys (self : t) (name : str) (w : World) (store : t)
    (w' : World) (key : str) :
  child self (Some name) w = (Ok store, w') ->
  join_path (_root_dir store) key
  = of_str (_root_dir self) </> of_str name </> of_str key.
Proof.
  unfold child, __init__. rewrite bind_eq.
  set (p := of_str (_root_dir self) </> of_str name).
  assert (Hroot : str_or (Some (to_str p)) [] = to_str p)
    by (cbn [str_or]; destruct (to_str p); reflexivity).
  destruct (Path_mkdir _ w) as [[[]|e] w1]; unfold ret; intros H; inversion H; subst.
  cbn [_root_dir]. change (join_path (str_or (Some (to_str p)) []) key = p </> of_str key).
  rewrite Hroot, join_path_truediv, of_str_to_str; [ reflexivity | ].
  apply well_formed_truediv; apply well_formed_of_str.
Qed.

End PathExtras.

(** ** clear *)

Lemma walk_app ns a : forall cur b,
  walk ns cur (a ++ b)
  = match walk ns cur a with
    | Some c => walk ns c b
    | None => None
    end.
Proof.
  induction a as [|seg a IH]; intros cur b; cbn [app walk]; [ reflexivity | ].
  destruct (lookup_node ns cur) as [[content|]|]; auto.
Qed.

(** Where a walk ends is where the path leads on paper. *)
Lemma walk_lexical ns segs : forall cur loc,
  walk ns cur segs = Some loc -> loc = resolve_from cur segs.
Proof.
  induction segs as [|seg rest IH]; intros cur loc H; cbn [walk] in H.
  - inversion H. reflexivity.
  - destruct (lookup_node ns cur) as [[content|]|]; try discriminate H.
    apply IH in H. exact H.
Qed.

Lemma strip_prefix_app (pre rest : list str) : strip_prefix pre (pre ++ rest) = Some rest.
Proof.
  induction pre as [|p pre IH]; cbn [app strip_prefix]; [ reflexivity | ].
  unfold str_eqb. rewrite bool_decide_eq_true_2 by reflexivity. exact IH.
Qed.

Lemma namei_join_relative w root key :
  is_absolute (of_str key) = false ->
  namei w (join_path root key)
  = match namei w (of_str root) with
    | Some c => walk (nodes w) c (parts (of_str key))
    | None => None
    end.
Proof.
  intros Hrel. rewrite join_path_truediv. unfold namei, truediv. rewrite Hrel.
  unfold is_absolute. cbn [path_root parts]. apply walk_app.
Qed.

Section ClearExtras.

Import FilePipelineStorage.

(** What [clear] leaves of the entries of the root directory:
    nothing. *)
Lemma swept_child_gone (ns : gmap (list str) node) (rootloc : list str) (x : str) :
  filter (fun kv : list str * node => swept ns rootloc kv.1 = false) ns
    !! (rootloc ++ [x]) = None.
Proof.
  destruct (filter _ ns !! (rootloc ++ [x])) as [n|] eqn:H; [ | reflexivity ].
  apply map_lookup_filter_Some in H. destruct H as [Hn Hs]. cbn [fst] in Hs.
  unfold swept in Hs. rewrite strip_prefix_app, Hn in Hs.
  destruct n; discriminate Hs.
Qed.

(** X11. After [clear], [has] is false for every key that is
    relative, not empty and without [".."]: nothing is left below the
    root. *)
Theorem has_after_clear (self : t) (key : str) (w w' : World) :
  clear self w = (Ok tt, w') ->
  is_absolute (of_str key) = false ->
  parts (of_str key) <> [] ->
  DOTDOT ∉ parts (of_str key) ->
  has self key w' = (Ok false, w').
Proof.
  intros Hclear Hrel Hparts Hdots.
  destruct (parts (of_str key)) as [|k1 rest] eqn:Hk; [ congruence | ].
  apply not_elem_of_cons in Hdots. destruct Hdots as [Hk1 _].
  assert (Hstep : forall cur, step cur k1 = cur ++ [k1]).
  { intros cur. unfold step, str_eqb.
    rewrite bool_decide_eq_false_2 by congruence. reflexivity. }
  assert (Hgoal : forall w0 : World,
             (forall rootloc, namei w0 (of_str (_root_dir self)) = Some rootloc ->
                lookup_node (nodes w0) rootloc = Some Dir ->
                nodes w0 !! (rootloc ++ [k1]) = None) ->
             has self key w0 = (Ok false, w0)).
  { intros w0 Hgone. unfold has, ospath_exists. f_equal. f_equal.
    rewrite (namei_join_relative _ _ _ Hrel), Hk.
    destruct (namei w0 (of_str (_root_dir self))) as [rootloc|]; [ | reflexivity ].
    cbn [walk]. destruct (lookup_node (nodes w0) rootloc) as [[c|]|] eqn:Hroot;
      try reflexivity.
    rewrite Hstep. specialize (Hgone rootloc eq_refl Hroot).
    assert (Hchild : lookup_node (nodes w0) (rootloc ++ [k1]) = None).
    { unfold lookup_node.
      rewrite bool_decide_eq_false_2 by (destruct rootloc; discriminate).
      exact Hgone. }
    destruct rest as [|k2 rest]; cbn [walk]; rewrite Hchild;
      [ apply bool_decide_eq_false_2; intros [x Hx]; discriminate Hx | reflexivity ]. }
  unfold clear in Hclear. rewrite bind_eq in Hclear. unfold ask at 1 in Hclear.
  destruct (namei w (of_str (_root_dir self))) as [rootloc|] eqn:Hn.
  - destruct (lookup_node (nodes w) rootloc) as [[c|]|] eqn:Hroot.
    + inversion Hclear; subst. apply Hgoal. intros r Hr Hd. congruence.
    + unfold set_nodes in Hclear. inversion Hclear; subst. clear Hclear.
      apply Hgoal. cbn [nodes]. intros r Hr _.
      assert (r = rootloc).
      { unfold namei in Hr, Hn. cbn [cwd nodes] in Hr.
        apply walk_lexical in Hr. apply walk_lexical in Hn. congruence. }
      subst r. apply swept_child_gone.
    + inversion Hclear; subst. apply Hgoal. intros r Hr Hd. congruence.
  - inversion Hclear; subst. apply Hgoal. intros r Hr. congruence.
Qed.

End ClearExtras.

Lemma strip_prefix_Some (pre : list str) : forall l r,
  strip_prefix pre l = Some r -> l = pre ++ r.
Proof.
  induction pre as [|p pre IH]; intros l r H; cbn [strip_prefix] in H.
  - inversion H. reflexivity.
  - destruct l as [|x l]; [ discriminate H | ].
    unfold str_eqb in H. case_bool_decide; [ | discriminate H ].
    subst x. cbn [app]. f_equal. apply IH. exact H.
Qed.

Section ClearKeeps.

Import FilePipelineStorage.

(** X12. [clear] removes nothing but what is below the root: the root
    directory itself and every node elsewhere are as before. *)
Theorem clear_keeps_outside (self : t) (w w' : World) (rootloc loc : list str) :
  clear self w = (Ok tt, w') ->
  namei w (of_str (_root_dir self)) = Some rootloc ->
  (forall x rest, loc <> rootloc ++ x :: rest) ->
  nodes w' !! loc = nodes w !! loc.
Proof.
  intros Hclear Hn Hout. unfold clear in Hclear.
  rewrite bind_eq in Hclear. unfold ask at 1 in Hclear. rewrite Hn in Hclear.
  destruct (lookup_node (nodes w) rootloc) as [[c|]|];
    try (inversion Hclear; subst; reflexivity).
  unfold set_nodes in Hclear. inversion Hclear; subst. clear Hclear. cbn [nodes].
  assert (Hkeep : swept (nodes w) rootloc loc = false).
  { unfold swept. destruct (strip_prefix rootloc loc) as [[|x rest]|] eqn:Hs;
      try reflexivity.
    apply strip_prefix_Some in Hs. exfalso. exact (Hout x rest Hs). }
  destruct (nodes w !! loc) as [n|] eqn:Hloc.
  - apply map_lookup_filter_Some. split; [ exact Hloc | exact Hkeep ].
  - apply map_lookup_filter_None. left. exact Hloc.
Qed.

End ClearKeeps.

(** ** Keys and the root directory, in use *)

Lemma acts_within_same root w : acts_within root w w.
Proof. intros loc H. congruence. Qed.

Lemma acts_within_written root w loc content :
  inside root loc -> acts_within root w (written w loc content).
Proof.
  intros Hin l Hl. unfold written in Hl. cbn [nodes] in Hl.
  destruct (decide (l = loc)) as [->|Hne]; [ exact Hin | ].
  rewrite lookup_insert_ne in Hl by congruence. congruence.
Qed.

Lemma acts_within_removed root w loc :
  inside root loc -> acts_within root w (removed w loc).
Proof.
  intros Hin l Hl. unfold removed in Hl. cbn [nodes] in Hl.
  destruct (decide (l = loc)) as [->|Hne]; [ exact Hin | ].
  rewrite lookup_delete_ne in Hl by congruence. congruence.
Qed.

Lemma namei_locate w p loc : namei w p = Some loc -> loc = locate (cwd w) p.
Proof. unfold namei, locate. apply walk_lexical. Qed.

Section ConfinementLemmas.

Import FilePipelineStorage.

Variable env : Env.

(** What [set] does to the world, however it ends. *)
Lemma set_effect self key v encoding w r w' :
  set env self key v encoding w = (r, w') ->
  w' = w
  \/ exists loc content,
       namei w (join_path (_root_dir self) key) = Some loc
       /\ w' = written w loc content.
Proof.
  unfold set. set (p := join_path (_root_dir self) key).
  set (enc := str_or encoding (_encoding self)).
  destruct w as [c ns k out tr]. unfold open_, written.
  rewrite !bind_eq. unfold ask at 1.
  destruct (namei _ p) as [loc|] eqn:Hn;
    [ | intros H; inversion H; left; reflexivity ].
  cbn [cwd nodes open_sessions stdout trace].
  assert (Hins : forall content : bytes,
             <[loc := File content]> (<[loc := File []]> ns) = <[loc := File content]> ns)
    by (intros; apply insert_insert_eq).
  destruct v as [b|s| |];
    (destruct (lookup_node ns loc) as [[old|]|] eqn:Hl;
     [ | intros H; inversion H; left; reflexivity | ]);
    run_io.
  1-2: intros H; inversion H; right; exists loc, b; rewrite Hins; split; reflexivity.
  all: destruct (codecs_lookup env enc) as [cd|];
    try (intros H; inversion H; right; exists loc, []; split; reflexivity).
  all: destruct (encode cd (write_newlines s)) as [content|e'];
    intros H; inversion H; right;
    [ exists loc, content; rewrite Hins | exists loc, [] ]; split; reflexivity.
Qed.

(** What [delete] does to the world, however it ends. *)
Lemma delete_effect self key w r w' :
  delete self key w = (r, w') ->
  w' = w
  \/ exists loc,
       namei w (join_path (_root_dir self) key) = Some loc /\ w' = removed w loc.
Proof.
  unfold delete. rewrite bind_eq.
  destruct (ospath_exists_pure (join_path (_root_dir self) key) w) as [b Hb].
  unfold has. rewrite Hb. destruct b.
  - unfold os_remove. rewrite bind_eq. unfold ask at 1.
    destruct (namei w (join_path (_root_dir self) key)) as [loc|];
      [ | intros H; inversion H; left; reflexivity ].
    destruct (lookup_node (nodes w) loc) as [[content|]|];
      try (intros H; inversion H; left; reflexivity).
    unfold set_nodes. intros H. inversion H. right. exists loc. split; reflexivity.
  - unfold ret. intros H. inversion H. left. reflexivity.
Qed.

Lemma has_true_inv self key w :
  has self key w = (Ok true, w) ->
  exists loc,
    namei w (join_path (_root_dir self) key) = Some loc
    /\ is_Some (lookup_node (nodes w) loc).
Proof.
  unfold has, ospath_exists. intros H.
  destruct (namei w (join_path (_root_dir self) key)) as [loc|]; [ | discriminate H ].
  exists loc. split; [ reflexivity | ].
  inversion H as [Hb]. apply bool_decide_eq_true_1 in Hb. exact Hb.
Qed.

(** With [has] true, what [get] returns as bytes is the content of
    the file the joined path names. *)
Lemma get_bytes_inv self key encoding w content :
  has self key w = (Ok true, w) ->
  get env self key (Some true) encoding w = (Ok (VBytes content), w) ->
  exists loc,
    namei w (join_path (_root_dir self) key) = Some loc
    /\ lookup_node (nodes w) loc = Some (File content).
Proof.
  intros Hhas. unfold get. rewrite bind_eq, Hhas.
  unfold _read_file, open_. cbn [truthy]. rewrite !bind_eq. unfold ask at 1.
  destruct (namei w (join_path (_root_dir self) key)) as [loc|]; [ | discriminate ].
  destruct (lookup_node (nodes w) loc) as [[c|]|] eqn:Hl; try discriminate.
  cbn [text_layer]. rewrite !bind_eq. unfold ret at 1. unfold ret at 1.
  unfold read. rewrite bind_eq. unfold ask at 1. cbn [h_loc h_codec].
  assert (Hraw : nodes w !! loc = Some (File c)).
  { unfold lookup_node in Hl. destruct (bool_decide (loc = [])); [ discriminate Hl | exact Hl ]. }
  rewrite Hraw. unfold ret. intros H. inversion H; subst.
  exists loc. split; [ reflexivity | exact Hl ].
Qed.

(** C9 (amended). For a key that is relative and whose [".."] segments
    never climb above the place where the key starts (so for every
    relative key without [".."]), the path joined from the root and
    the key stays within the root directory when used by [set],
    [delete] and [has], and by [get] when the key is there: whatever
    [set] and [delete] change lies inside the root, the node [has]
    finds is inside the root, and what [get] returns as bytes for a
    key that [has] finds is the content of a file inside the root. *)
Theorem confined_key_stays_within_root (self : t) (key : str) (w : World) :
  let root := locate (cwd w) (of_str (_root_dir self)) in
  confined_key key ->
  stays_within_root (cwd w) (_root_dir self) key
  /\ (forall v encoding r w',
        set env self key v encoding w = (r, w') -> acts_within root w w')
  /\ (forall r w', delete self key w = (r, w') -> acts_within root w w')
  /\ (has self key w = (Ok true, w) ->
      exists loc,
        namei w (join_path (_root_dir self) key) = Some loc
        /\ inside root loc /\ is_Some (lookup_node (nodes w) loc))
  /\ (has self key w = (Ok true, w) -> served_from_root env self key w).
Proof.
  intros root Hkey.
  pose proof (join_path_confined (cwd w) (_root_dir self) key Hkey) as Hin.
  assert (Hloc : forall loc, namei w (join_path (_root_dir self) key) = Some loc ->
                             inside root loc).
  { intros loc Hn. apply namei_locate in Hn. subst loc. exact Hin. }
  split; [ exact Hin | ]. split; [ | split; [ | split ] ].
  - intros v encoding r w' Hset.
    destruct (set_effect _ _ _ _ _ _ _ Hset) as [->|(loc & content & Hn & ->)].
    + apply acts_within_same.
    + apply acts_within_written, Hloc, Hn.
  - intros r w' Hdel.
    destruct (delete_effect _ _ _ _ _ Hdel) as [->|(loc & Hn & ->)].
    + apply acts_within_same.
    + apply acts_within_removed, Hloc, Hn.
  - intros Hhas. destruct (has_true_inv _ _ _ Hhas) as (loc & Hn & Hsome).
    exists loc. split; [ exact Hn | ]. split; [ apply Hloc, Hn | exact Hsome ].
  - intros Hhas encoding content Hget.
    destruct (get_bytes_inv _ _ _ _ _ Hhas Hget) as (loc & Hn & Hl).
    exists loc. split; [ apply Hloc, Hn | exact Hl ].
Qed.

End ConfinementLemmas.

Section ConfinementExamples.

Import FilePipelineStorage.

(** The key ["sub/../a.txt"]: its joined path names [/home/out/a.txt],
    inside [/home/out], and that is the node [has] finds. *)
Lemma confined_key_stays_within_root_witness :
  confined_key (py "sub/../a.txt")
  /\ stays_within_root [py "home"] (py "out") (py "sub/../a.txt")
  /\ exists loc,
       namei stocked_world (join_path (py "out") (py "sub/../a.txt")) = Some loc
       /\ inside [py "home"; py "out"] loc
       /\ is_Some (lookup_node (nodes stocked_world) loc).
Proof.
  assert (H : confined_key (py "sub/../a.txt")) by (split; reflexivity).
  destruct (confined_key_stays_within_root (Demo.env false false) Demo.store
              (py "sub/../a.txt") stocked_world H) as (H1 & _ & _ & H4 & _).
  split; [ exact H | ]. split; [ exact H1 | ].
  apply H4. unfold has, ospath_exists. do 2 f_equal.
Defined.

(** C9 as stated fails twice. The key ["../secret"] joined to the root
    ["out"] names [/home/secret], outside [/home/out]. And the key
    ["keep.txt"], which has no [".."] at all, is not in the store
    directory: [get] falls back to the key as a path of its own and
    returns the content of [/home/keep.txt], a file outside the
    root. *)
Lemma storage_key_escapes_root :
  ~ stays_within_root_in_use (Demo.env false false) Demo.store (py "../secret") Demo.world
  /\ confined_key (py "keep.txt")
  /\ ~ stays_within_root_in_use (Demo.env false false) Demo.store (py "keep.txt")
       stocked_world.
Proof.
  split; [ | split ].
  - intros [H _]. exact (join_path_escapes_root H).
  - split; reflexivity.
  - intros (_ & _ & _ & _ & H).
    assert (Hget : get (Demo.env false false) Demo.store (py "keep.txt") (Some true) None
                     stocked_world = (Ok (VBytes (py "k")), stocked_world))
      by (vm_compute; reflexivity).
    destruct (H None (py "k") Hget) as (loc & [t Ht] & Hl).
    subst loc. unfold lookup_node in Hl.
    rewrite bool_decide_eq_false_2 in Hl by discriminate.
    unfold stocked_world, Demo.world in Hl. cbn [nodes] in Hl.
    repeat (apply lookup_insert_Some in Hl;
            destruct Hl as [[Hk Hv]|[_ Hl]]; [ try discriminate Hv; try discriminate Hk | ]).
    rewrite lookup_empty in Hl. discriminate Hl.
Qed.

End ConfinementExamples.

(** ** The extraction rules *)

Lemma replace_layout (s : str) :
  replace_char IDEOGRAPHIC_SPACE []
    (replace_char SPACE [] (replace_char LF [] (replace_char LF [] s)))
  = strip_layout s.
Proof.
  unfold strip_layout, replace_char.
  induction s as [|c s IH]; [ reflexivity | ].
  cbn [flat_map]. destruct (N.eqb_spec c LF) as [->|Hl].
  - cbn [app]. rewrite IH. rewrite list.filter_cons_False; [ reflexivity | ].
    intros (H & _). apply H. reflexivity.
  - cbn [app flat_map]. destruct (N.eqb_spec c LF) as [->|_]; [ congruence | ].
    cbn [app flat_map]. destruct (N.eqb_spec c SPACE) as [->|Hs].
    + cbn [app]. rewrite IH. rewrite list.filter_cons_False; [ reflexivity | ].
      intros (_ & H & _). apply H. reflexivity.
    + cbn [app flat_map]. destruct (N.eqb_spec c IDEOGRAPHIC_SPACE) as [->|Hi].
      * cbn [app]. rewrite IH. rewrite list.filter_cons_False; [ reflexivity | ].
        intros (_ & _ & H). apply H. reflexivity.
      * cbn [app]. rewrite IH.
        rewrite list.filter_cons_True by (repeat split; assumption). reflexivity.
Qed.

Lemma fold_shapes (f : Shape -> str) (sld : list Shape) : forall output,
  fold_left (fun output shp => if has_text_frame shp then output ++ f shp else output)
    sld output
  = output ++ flat_map f (filter (fun shp => has_text_frame shp = true) sld).
Proof.
  induction sld as [|shp sld IH]; intros output; cbn [fold_left].
  - rewrite app_nil_r. reflexivity.
  - rewrite IH. destruct (has_text_frame shp) eqn:Hf.
    + rewrite list.filter_cons_True by exact Hf. cbn [flat_map].
      rewrite <- app_assoc. reflexivity.
    + rewrite list.filter_cons_False by congruence. reflexivity.
Qed.

Lemma fold_slides (g : list Shape -> str) (h : str -> list Shape -> str)
    (slides : list (list Shape)) :
  (forall output sld, h output sld = output ++ g sld) ->
  forall output, fold_left h slides output = output ++ flat_map g slides.
Proof.
  intros Hh. induction slides as [|sld slides IH]; intros output; cbn [fold_left flat_map].
  - rewrite app_nil_r. reflexivity.
  - rewrite IH, Hh, <- app_assoc. reflexivity.
Qed.

Lemma flat_map_filter_concat {A B} (f : A -> list B) (P : A -> Prop)
    `{forall x, Decision (P x)} (ls : list (list A)) :
  flat_map (fun l => flat_map f (filter P l)) ls = flat_map f (filter P (concat ls)).
Proof.
  induction ls as [|l ls IH]; [ reflexivity | ].
  cbn [flat_map concat]. rewrite IH, list.filter_app, flat_map_app. reflexivity.
Qed.

Lemma fold_cells (cells : list (option str)) : forall output,
  fold_left (fun output cell =>
               match cell with None => output | Some data => output ++ data end)
    cells output
  = output ++ flat_map cell_text cells.
Proof.
  induction cells as [|cell cells IH]; intros output; cbn [fold_left flat_map].
  - rewrite app_nil_r. reflexivity.
  - rewrite IH. destruct cell as [data|]; cbn [cell_text app].
    + rewrite <- app_assoc. reflexivity.
    + reflexivity.
Qed.

Section RuleExtras.

Import FilePipelineStorage.

Variable env : Env.

(** X13. The rule for txt, html, md and csv gives back the text whose
    UTF-8 encoding the file holds, character for character: nothing is
    stripped and no line ending is changed. *)
Theorem get_text_from_binary_decodes_utf_8 (s : str) (file : bytes) :
  utf_8.encode_chars s = Some file ->
  get_text_from_binary file = Ok s.
Proof.
  intros H. unfold get_text_from_binary, utf_8.codec. cbn [decode].
  rewrite (utf_8_facts.decode_encode _ _ H). reflexivity.
Qed.

(** X14. The pptx rule returns, for the shapes that have a text frame,
    taken slide by slide and shape by shape, their texts without line
    feeds, half-width and full-width spaces, joined with no
    separator; shapes without a text frame give nothing. *)
Theorem get_text_from_powerpoint_closed_form (file : bytes) (slides : list (list Shape)) :
  pptx_Presentation env file = Ok slides ->
  get_text_from_powerpoint env file
  = Ok (flat_map (fun shp => strip_layout (shape_text shp))
          (filter (fun shp => has_text_frame shp = true) (concat slides))).
Proof.
  intros H. unfold get_text_from_powerpoint. rewrite H. f_equal.
  rewrite (fold_slides
             (fun sld => flat_map (fun shp => strip_layout (shape_text shp))
                           (filter (fun shp => has_text_frame shp = true) sld))).
  - cbn [app]. apply flat_map_filter_concat.
  - intros output sld. rewrite fold_shapes. f_equal.
    apply flat_map_ext. intros shp. apply replace_layout.
Qed.

(** X15. The xlsx rule returns, sheet after sheet in workbook order,
    the name of the sheet on a line of its own, then one line for each
    row holding the texts of its cells that are not empty with nothing
    between them, then two empty lines. *)
Theorem get_text_from_excel_closed_form (file : bytes) (book : list Worksheet) :
  openpyxl_load_workbook env file = Ok book ->
  get_text_from_excel env file = Ok (flat_map sheet_text book).
Proof.
  intros H. unfold get_text_from_excel. rewrite H. f_equal.
  assert (Hrows : forall rws output,
             fold_left (fun output_text cells =>
                          fold_left (fun output_text cell =>
                                       match cell with
                                       | None => output_text
                                       | Some data => output_text ++ data
                                       end) cells output_text ++ [LF])
               rws output
             = output ++ flat_map row_text rws).
  { induction rws as [|cells rws IH]; intros output; cbn [fold_left flat_map].
    - rewrite app_nil_r. reflexivity.
    - rewrite IH, fold_cells. unfold row_text. rewrite <- !app_assoc. reflexivity. }
  assert (Hsheets : forall sheets output,
             fold_left (fun output_text sheet =>
                          fold_left (fun output_text cells =>
                                       fold_left (fun output_text cell =>
                                                    match cell with
                                                    | None => output_text
                                                    | Some data => output_text ++ data
                                                    end) cells output_text ++ [LF])
                            (rows sheet) (output_text ++ sheet_name sheet ++ [LF])
                          ++ [LF; LF])
               sheets output
             = output ++ flat_map sheet_text sheets).
  { induction sheets as [|sheet sheets IH]; intros output; cbn [fold_left flat_map].
    - rewrite app_nil_r. reflexivity.
    - rewrite IH, Hrows. unfold sheet_text. rewrite <- !app_assoc. reflexivity. }
  apply (Hsheets book []).
Qed.

End RuleExtras.

(** ** More on [find] and [getText] *)

Section FindExtras.

Import FilePipelineStorage.

Variable env : Env.

Lemma find_next_sessions (g : FindGen) (w : World) :
  open_sessions (find_next env g w).2 = open_sessions w.
Proof.
  destruct g as [self args|args rest j nf n|].
  - rewrite find_next_created.
    destruct (smb_connect env _ (file_server args) 445); reflexivity.
  - unfold find_next, find_body.
    destruct ((0 <? max_count args) && (max_count args <=? j + 1)); [ reflexivity | ].
    rewrite bind_eq. destruct (progress args); destruct rest; reflexivity.
  - reflexivity.
Qed.

(** X16. [find] leaves no session open, wherever its consumer stops:
    after any number of calls of [next], as many sessions are open as
    before the first one. The session is opened and closed inside the
    first call. *)
Theorem find_leaves_no_session_open (self : t) (args : FindArgs) (w : World) (k : nat) :
  open_sessions (advance env k (find self args) w).2 = open_sessions w.
Proof.
  generalize (find self args). revert w.
  induction k as [|k IH]; intros w g; cbn [advance]; [ reflexivity | ].
  rewrite IH. apply find_next_sessions.
Qed.

(** X17. A connection that cannot be made is an error of the first
    [next], not of the call of [find]: it raises what [connect]
    raised, nothing was listed or printed, and the generator is
    finished. *)
Theorem find_connect_failure (self : t) (args : FindArgs) (w : World) (e : exn)
    (fuel : nat) :
  let conn := new_connection env (userid args) (password args) in
  smb_connect env conn (file_server args) 445 = Some e ->
  consume env (S fuel) (find self args) w
  = Some ([], Raise e, Finished, add_trace w [EvConnect conn (file_server args) 445]).
Proof.
  intros conn Hc. cbn [consume]. unfold find. rewrite find_next_created.
  fold conn. rewrite Hc. reflexivity.
Qed.

Lemma consume_suspended_same (a b : FindArgs) :
  progress a = progress b -> max_count a = max_count b ->
  forall fuel rest j nf n w,
    consume env fuel (Suspended a rest j nf n) w
    = consume env fuel (Suspended b rest j nf n) w.
Proof.
  intros Hp Hm. induction fuel as [|fuel IH]; intros rest j nf n w; [ reflexivity | ].
  cbn [consume]. unfold find_next, find_body. rewrite Hp, Hm.
  destruct ((0 <? max_count b) && (max_count b <=? j + 1)); [ reflexivity | ].
  rewrite !bind_eq.
  destruct (progress b); (destruct rest as [|f rest]; [ reflexivity | ]);
    cbv beta iota delta [emit ret loop_head]; rewrite IH; reflexivity.
Qed.

(** X18. What [find] yields, prints and does on the share does not
    depend on the store it is called on, nor on [file_pattern],
    [base_dir] and [file_filter]: no file is matched against the
    pattern and no filter is applied. *)
Theorem find_ignores_pattern_and_filter (self self' : t) (a b : FindArgs)
    (fuel : nat) (w : World) :
  same_request a b ->
  consume env fuel (find self a) w = consume env fuel (find self' b) w.
Proof.
  intros (Hp & Hm & Hu & Hpw & Hs & Hf & Hfp).
  destruct fuel as [|fuel]; [ reflexivity | ]. cbn [consume]. unfold find.
  rewrite !find_next_created. rewrite <- Hu, <- Hpw, <- Hf.
  set (conn := new_connection env (userid a) (password a)).
  assert (Hfiles : all_files env conn b = all_files env conn a).
  { unfold all_files. f_equal. generalize patterns.
    induction l as [|p l IH]; [ reflexivity | ].
    cbn [gathered]. unfold listing. rewrite <- Hs, <- Hfp, IH. reflexivity. }
  assert (Hworld : forall evs, after_find env conn b w evs = after_find env conn a w evs).
  { intros evs. unfold after_find, error_lines, session_events.
    rewrite <- Hf, <- Hs, <- Hfp.
    assert (Hl : forall l, listed env conn b l = listed env conn a l).
    { induction l as [|p l IH]; [ reflexivity | ].
      cbn [listed]. unfold listing. rewrite <- Hs, <- Hfp, IH. reflexivity. }
    assert (He : forall l, first_error env conn b l = first_error env conn a l).
    { induction l as [|p l IH]; [ reflexivity | ].
      cbn [first_error]. unfold listing. rewrite <- Hs, <- Hfp, IH. reflexivity. }
    rewrite Hl, He. reflexivity. }
  rewrite Hfiles, Hworld.
  destruct (smb_connect env conn (file_server a) 445); [ reflexivity | ].
  destruct (all_files env conn a) as [|f rest]; [ reflexivity | ].
  rewrite (consume_suspended_same a b Hp Hm). reflexivity.
Qed.

(** X19. With the connection made, no listing failing and no limit,
    [find] yields the file names of all the entries, pattern after
    pattern in the order of the nine patterns and in the order of each
    listing, each with empty metadata; nothing is printed. Entries
    listed twice are yielded twice. *)
Theorem find_yields_all_entries (self : t) (args : FindArgs) (w : World) (fuel : nat)
    (entries : str -> list SharedFile) :
  let conn := new_connection env (userid args) (password args) in
  let files := flat_map (fun p => map filename (entries p)) patterns in
  smb_connect env conn (file_server args) 445 = None ->
  (forall p, p ∈ patterns -> listing env conn args p = Ok (entries p)) ->
  max_count args <= 0 ->
  (length files < fuel)%nat ->
  exists w',
    consume env fuel (find self args) w
    = Some (map (fun f => (f, [])) files, Ok tt, Finished, w')
    /\ stdout w' = stdout w.
Proof.
  intros conn files Hc Hl Hm Hfuel.
  assert (Hg : forall l, (forall p, p ∈ l -> listing env conn args p = Ok (entries p)) ->
                         map filename (gathered env conn args l)
                         = flat_map (fun p => map filename (entries p)) l
                         /\ first_error env conn args l = None).
  { induction l as [|p l IH]; intros Hin; [ split; reflexivity | ].
    cbn [gathered first_error flat_map]. rewrite (Hin p) by left.
    destruct IH as [IH1 IH2]; [ intros q Hq; apply Hin; right; exact Hq | ].
    rewrite map_app, IH1. split; [ reflexivity | exact IH2 ]. }
  destruct (Hg patterns Hl) as [Hfiles He]. fold (all_files env conn args) in Hfiles.
  fold files in Hfiles.
  eexists. split.
  - rewrite (consume_find env self args w fuel Hc) by (fold conn; rewrite Hfiles; exact Hfuel).
    fold conn. rewrite Hfiles. unfold yielded_count.
    destruct (Z.ltb_spec 0 (max_count args)); [ lia | ].
    rewrite firstn_all. reflexivity.
  - unfold after_find, error_lines. cbn [stdout]. rewrite He. apply app_nil_r.
Qed.


(** X21. Once connected, [getText] makes one request on the
    connection and no other call: it asks for the file
    [<file_path>/<key>] of the share named ["anthra"], whatever share
    the caller names in [share_directory] and whatever the store,
    [as_bytes] and [encoding] are. *)
Theorem getText_asks_share_anthra (self : t) (key : str) (as_bytes : option bool)
    (encoding : option str)
    (userid password share_directory file_server file_path : option str) (w : World) :
  let conn := new_connection env userid password in
  smb_connect env conn file_server 445 = None ->
  new_events w
    (getText env self key as_bytes encoding userid password share_directory
       file_server file_path w).2
  = [EvConnect conn file_server 445;
     EvRetrieveFile conn (py "anthra") (fmt_opt file_path ++ [SLASH] ++ key)].
Proof.
  intros conn Hc. rewrite getText_spec. fold conn. rewrite Hc.
  destruct (smb_retrieveFile env conn (py "anthra") (fmt_opt file_path ++ [SLASH] ++ key));
    apply new_events_app; reflexivity.
Qed.

End FindExtras.

(** ** Writing one key and reading another *)

Lemma walk_insert_same ns loc content segs : forall cur,
  lookup_node ns loc <> Some Dir ->
  walk (<[loc := File content]> ns) cur segs = walk ns cur segs.
Proof.
  induction segs as [|seg rest IH]; intros cur Hl; cbn [walk]; [ reflexivity | ].
  destruct (decide (cur = loc)) as [->|Hne].
  - rewrite (lookup_node_insert_eq _ _ _ (not_dir_not_root _ _ Hl)).
    destruct (lookup_node ns loc) as [[c|]|]; congruence.
  - rewrite lookup_node_insert_ne by exact Hne.
    destruct (lookup_node ns cur) as [[c|]|]; auto.
Qed.

Lemma namei_written_same w loc content p :
  lookup_node (nodes w) loc <> Some Dir ->
  namei (written w loc content) p = namei w p.
Proof. intros Hl. unfold namei, written. cbn [cwd nodes]. apply walk_insert_same, Hl. Qed.

Section FrameExtras.

Import FilePipelineStorage.

Variable env : Env.

Lemma read_file_elsewhere self p as_bytes encoding w loc content :
  lookup_node (nodes w) loc <> Some Dir ->
  namei w p <> Some loc ->
  is_Some (namei w p) ->
  (_read_file env self p as_bytes encoding (written w loc content)).1
  = (_read_file env self p as_bytes encoding w).1.
Proof.
  intros Hl Hp Hsome. pose proof (namei_written_same w loc content p Hl) as Hn.
  destruct w as [c0 ns k out tr]. unfold written in *.
  cbn [cwd nodes open_sessions stdout trace] in *.
  unfold _read_file, open_. rewrite !bind_eq. unfold ask. rewrite Hn.
  destruct (namei _ p) as [l|]; [ | destruct Hsome as [x Hx]; discriminate Hx ].
  assert (Hne : l <> loc) by congruence.
  cbn [nodes]. rewrite (lookup_node_insert_ne _ _ _ _ Hne).
  assert (Hraw : <[loc := File content]> ns !! l = ns !! l)
    by (apply lookup_insert_ne; congruence).
  destruct (truthy as_bytes);
    (destruct (lookup_node ns l) as [[c|]|]; [ | reflexivity | reflexivity ]);
    run_io; rewrite ?Hraw.
  - destruct (ns !! l) as [[c'|]|]; reflexivity.
  - destruct (codecs_lookup env (str_or encoding (_encoding self))) as [cd|];
      [ | reflexivity ].
    rewrite ?Hraw. destruct (ns !! l) as [[c'|]|]; try reflexivity.
    destruct (decode cd c'); reflexivity.
Qed.

Lemma exists_true_names p w : ospath_exists p w = (Ok true, w) -> is_Some (namei w p).
Proof.
  unfold ospath_exists. intros H.
  destruct (namei w p) as [l|]; [ eexists; reflexivity | discriminate H ].
Qed.

Lemma exists_str_true_names s w :
  ospath_exists_str s w = (Ok true, w) -> is_Some (namei w (of_str s)).
Proof.
  unfold ospath_exists_str. intros H. destruct s as [|c s]; [ discriminate H | ].
  destruct (namei w (of_str (c :: s))) as [l|]; [ eexists; reflexivity | discriminate H ].
Qed.

Lemma exists_elsewhere p w loc content :
  lookup_node (nodes w) loc <> Some Dir ->
  namei w p <> Some loc ->
  (ospath_exists p (written w loc content)).1 = (ospath_exists p w).1.
Proof.
  intros Hl Hp. unfold ospath_exists. cbv beta. unfold fst.
  rewrite (namei_written_same _ _ _ _ Hl).
  destruct (namei w p) as [l|]; [ | reflexivity ].
  change (nodes (written w loc content)) with (<[loc := File content]> (nodes w)).
  rewrite lookup_node_insert_ne by congruence. reflexivity.
Qed.

Lemma exists_str_elsewhere s w loc content :
  lookup_node (nodes w) loc <> Some Dir ->
  namei w (of_str s) <> Some loc ->
  (ospath_exists_str s (written w loc content)).1 = (ospath_exists_str s w).1.
Proof.
  intros Hl Hp. unfold ospath_exists_str. cbv beta. unfold fst.
  destruct s as [|c s]; [ reflexivity | ].
  rewrite (namei_written_same _ _ _ _ Hl).
  destruct (namei w (of_str (c :: s))) as [l|]; [ | reflexivity ].
  change (nodes (written w loc content)) with (<[loc := File content]> (nodes w)).
  rewrite lookup_node_insert_ne by congruence. reflexivity.
Qed.

(** X22. Writing one key leaves the others as they were: after a
    [set] of [key], [get] of a key that denotes another file, under
    the root and as a path of its own, returns (or raises) what it
    did before. *)
Theorem set_leaves_other_keys (self : t) (key other : str) (v : value)
    (encoding : option str) (as_bytes : option bool) (encoding' : option str)
    (w w' : World) :
  set env self key v encoding w = (Ok tt, w') ->
  namei w (join_path (_root_dir self) other) <> namei w (join_path (_root_dir self) key) ->
  namei w (of_str other) <> namei w (join_path (_root_dir self) key) ->
  (get env self other as_bytes encoding' w').1
  = (get env self other as_bytes encoding' w).1.
Proof.
  intros Hset H1 H2.
  destruct (set_ok_inv _ _ _ _ _ _ _ Hset) as (loc & content & Hn & Hl & -> & _).
  rewrite Hn in H1, H2.
  pose proof (exists_elsewhere _ _ _ content Hl H1) as He1.
  pose proof (exists_str_elsewhere _ _ _ content Hl H2) as He2.
  pose proof (read_file_elsewhere self _ as_bytes encoding' _ _ content Hl H1) as Hr1.
  pose proof (read_file_elsewhere self _ as_bytes encoding' _ _ content Hl H2) as Hr2.
  pose proof (exists_true_names (join_path (_root_dir self) other) w) as Hs1.
  pose proof (exists_str_true_names other w) as Hs2.
  unfold get, has. rewrite !bind_eq.
  destruct (ospath_exists_pure (join_path (_root_dir self) other) w) as [b Hb].
  destruct (ospath_exists_pure (join_path (_root_dir self) other) (written w loc content))
    as [b' Hb'].
  rewrite Hb, Hb' in He1. cbn [fst] in He1. inversion He1; subst b'.
  rewrite Hb, Hb'. destruct b; [ exact (Hr1 (Hs1 Hb)) | ].
  rewrite !bind_eq.
  destruct (ospath_exists_str_pure other w) as [c Hc].
  destruct (ospath_exists_str_pure other (written w loc content)) as [c' Hc'].
  rewrite Hc, Hc' in He2. cbn [fst] in He2. inversion He2; subst c'.
  rewrite Hc, Hc'. destruct c; [ exact (Hr2 (Hs2 Hc)) | reflexivity ].
Qed.

(** X23. A key that names nothing under the root but names a file as
    a path of its own is read from that path: [get] as bytes returns
    the content of that file. *)
Theorem get_falls_back_to_key_path (self : t) (c : N) (key : str)
    (encoding : option str) (w : World) (loc : list str) (content : bytes) :
  names_nothing w (join_path (_root_dir self) (c :: key)) ->
  namei w (of_str (c :: key)) = Some loc ->
  lookup_node (nodes w) loc = Some (File content) ->
  names_directory (c :: key) = false ->
  get env self (c :: key) (Some true) encoding w = (Ok (VBytes content), w).
Proof.
  unfold names_nothing. intros Hnone Hn Hl Hd.
  assert (Hraw : nodes w !! loc = Some (File content)).
  { unfold lookup_node in Hl. destruct (bool_decide (loc = [])); [ discriminate Hl | exact Hl ]. }
  unfold get, has. rewrite bind_eq. unfold ospath_exists at 1.
  assert (Hhas : match namei w (join_path (_root_dir self) (c :: key)) with
                 | Some l => bool_decide (is_Some (lookup_node (nodes w) l))
                 | None => false
                 end = false).
  { destruct (namei w (join_path (_root_dir self) (c :: key))) as [l|]; [ | reflexivity ].
    rewrite Hnone. apply bool_decide_eq_false_2. intros [x Hx]. discriminate Hx. }
  rewrite Hhas. rewrite bind_eq. unfold ospath_exists_str. rewrite Hn, Hl, Hd.
  cbn [negb]. unfold _read_file, open_. cbn [truthy]. rewrite !bind_eq.
  unfold ask at 1. rewrite Hn, Hl. cbn [text_layer]. rewrite !bind_eq.
  unfold ret at 1. unfold ret at 1. unfold read. rewrite bind_eq. unfold ask at 1.
  cbn [h_loc h_codec]. rewrite Hraw. reflexivity.
Qed.

End FrameExtras.

(** ** The properties above on the demo store *)

Section ExtraExamples.

Import FilePipelineStorage.

Lemma get_missing_key_returns_None_witness :
  get (Demo.env false false) Demo.store (py "absent.txt") None None Demo.world
  = (Ok VNone, Demo.world).
Proof.
  exact (get_missing_key_returns_None (Demo.env false false) Demo.store
           (py "absent.txt") None None Demo.world
           ltac:(vm_compute; reflexivity) ltac:(vm_compute; reflexivity)).
Defined.

Lemma has_after_set_witness :
  exists w',
    set (Demo.env false false) Demo.store (py "a.txt") (VBytes (py "a")) None Demo.world
    = (Ok tt, w')
    /\ has Demo.store (py "a.txt") w' = (Ok true, w').
Proof.
  destruct (set (Demo.env false false) Demo.store (py "a.txt") (VBytes (py "a")) None
              Demo.world) as [[[]|e] w'] eqn:E; [ | vm_compute in E; discriminate E ].
  exists w'. split; [ reflexivity | exact (has_after_set _ _ _ _ _ _ _ E) ].
Defined.

Lemma has_after_delete_witness :
  exists w',
    delete Demo.store (py "a.txt") stocked_world = (Ok tt, w')
    /\ has Demo.store (py "a.txt") stocked_world = (Ok true, stocked_world)
    /\ has Demo.store (py "a.txt") w' = (Ok false, w').
Proof.
  destruct (delete Demo.store (py "a.txt") stocked_world) as [[[]|e] w'] eqn:E;
    [ | vm_compute in E; discriminate E ].
  exists w'. split; [ reflexivity | ].
  split; [ | exact (has_after_delete _ _ _ _ E) ].
  unfold has, ospath_exists. do 2 f_equal.
Defined.

Lemma delete_missing_is_noop_witness :
  delete Demo.store (py "absent.txt") stocked_world = (Ok tt, stocked_world).
Proof.
  exact (delete_missing_is_noop Demo.store (py "absent.txt") stocked_world
           ltac:(vm_compute; reflexivity)).
Defined.


Lemma init_creates_root_witness :
  exists self w',
    __init__ (Some (py "new/store")) None Demo.world = (Ok self, w')
    /\ self = mk (py "new/store") (py "utf-8")
    /\ (exists loc, namei w' (of_str (_root_dir self)) = Some loc
                    /\ lookup_node (nodes w') loc = Some Dir)
    /\ (forall loc n, nodes Demo.world !! loc = Some n -> nodes w' !! loc = Some n).
Proof.
  destruct (__init__ (Some (py "new/store")) None Demo.world) as [[self|e] w'] eqn:E;
    [ | vm_compute in E; discriminate E ].
  exists self, w'. split; [ reflexivity | ].
  exact (init_creates_root _ _ _ _ _ E).
Defined.

Lemma child_scopes_keys_witness :
  exists store w',
    child Demo.store (Some (py "sub")) Demo.world = (Ok store, w')
    /\ join_path (_root_dir store) (py "f")
       = mkPath NoRoot [py "out"; py "sub"; py "f"].
Proof.
  destruct (child Demo.store (Some (py "sub")) Demo.world) as [[store|e] w'] eqn:E;
    [ | vm_compute in E; discriminate E ].
  exists store, w'. split; [ reflexivity | ].
  exact (child_scopes_keys Demo.store (py "sub") Demo.world store w' (py "f") E).
Defined.

Lemma has_after_clear_witness :
  exists w',
    clear Demo.store stocked_world = (Ok tt, w')
    /\ has Demo.store (py "sub/b.txt") w' = (Ok false, w').
Proof.
  destruct (clear Demo.store stocked_world) as [[[]|e] w'] eqn:E;
    [ | vm_compute in E; discriminate E ].
  exists w'. split; [ reflexivity | ].
  apply (has_after_clear Demo.store (py "sub/b.txt") stocked_world w' E).
  - reflexivity.
  - vm_compute. discriminate.
  - apply (bool_decide_unpack _). vm_compute. exact I.
Defined.

(** The file beside the store directory is still there after
    [clear]. *)
Lemma clear_keeps_outside_witness :
  exists w',
    clear Demo.store stocked_world = (Ok tt, w')
    /\ nodes w' !! [py "home"; py "keep.txt"] = Some (File (py "k")).
Proof.
  destruct (clear Demo.store stocked_world) as [[[]|e] w'] eqn:E;
    [ | vm_compute in E; discriminate E ].
  exists w'. split; [ reflexivity | ].
  rewrite (clear_keeps_outside Demo.store stocked_world w'
             [py "home"; py "out"] [py "home"; py "keep.txt"] E).
  - vm_compute. reflexivity.
  - vm_compute. reflexivity.
  - intros x rest H. vm_compute in H. discriminate H.
Defined.

Lemma get_text_from_binary_decodes_utf_8_witness :
  get_text_from_binary [104; 195; 169; 13; 10]%N = Ok [104; 233; 13; 10]%N.
Proof.
  exact (get_text_from_binary_decodes_utf_8 [104; 233; 13; 10]%N [104; 195; 169; 13; 10]%N
           eq_refl).
Defined.

Lemma get_text_from_powerpoint_closed_form_witness :
  get_text_from_powerpoint (Demo.env false false) (py "PK") = Ok (py "abcd").
Proof.
  exact (get_text_from_powerpoint_closed_form (Demo.env false false) (py "PK") _ eq_refl).
Defined.

Lemma get_text_from_excel_closed_form_witness :
  get_text_from_excel (Demo.env false false) (py "PK")
  = Ok (py "Sheet1" ++ [LF] ++ py "xy" ++ [LF; LF; LF]).
Proof.
  exact (get_text_from_excel_closed_form (Demo.env false false) (py "PK") _ eq_refl).
Defined.

Lemma find_connect_failure_witness :
  consume refusing_env 1 (find Demo.store (Demo.args 0)) Demo.world
  = Some ([], Raise (mkError "ConnectionRefusedError" (py "Connection refused")),
          Finished,
          add_trace Demo.world
            [EvConnect (new_connection refusing_env (Some (py "alice")) (Some (py "secret")))
               (Some (py "10.0.0.7")) 445]).
Proof.
  exact (find_connect_failure refusing_env Demo.store (Demo.args 0) Demo.world _ 0 eq_refl).
Defined.

(** Another pattern, a base directory and a filter: what is yielded is
    the same. *)
Lemma find_ignores_pattern_and_filter_witness :
  consume (Demo.env false false) 5 (find Demo.store (Demo.args 0)) Demo.world
  = consume (Demo.env false false) 5
      (find Demo.store
         (mkFindArgs (py ".*\.pdf$") (Some (py "reports")) true
            (Some [(py "kind", py "pdf")]) 0
            (Some (py "alice")) (Some (py "secret")) (Some (py "docs"))
            (Some (py "10.0.0.7")) (Some (py "reports"))))
      Demo.world.
Proof.
  apply find_ignores_pattern_and_filter. repeat split.
Defined.

Lemma find_yields_all_entries_witness :
  exists w',
    consume (Demo.env false false) 5 (find Demo.store (Demo.args 0)) Demo.world
    = Some ([(py "a.docx", []); (py "b.docx", []); (py "c.pdf", []); (py "notes.txt", [])],
            Ok tt, Finished, w')
    /\ stdout w' = [].
Proof.
  exact (find_yields_all_entries (Demo.env false false) Demo.store (Demo.args 0)
           Demo.world 5
           (fun p => match Demo.listPath false p with Ok l => l | Raise _ => [] end)
           eq_refl
           ltac:(intros p _; cbn; unfold Demo.listPath;
                 repeat (destruct (str_eqb _ _); try reflexivity))
           ltac:(cbn; lia) ltac:(vm_compute; lia)).
Defined.

(** [a.txt] is written again; [sub/b.txt] reads as before. *)
Lemma set_leaves_other_keys_witness :
  exists w',
    set (Demo.env false false) Demo.store (py "a.txt") (VStr (py "new")) None stocked_world
    = (Ok tt, w')
    /\ (get (Demo.env false false) Demo.store (py "sub/b.txt") None None w').1
       = Ok (VStr (py "b")).
Proof.
  destruct (set (Demo.env false false) Demo.store (py "a.txt") (VStr (py "new")) None
              stocked_world) as [[[]|e] w'] eqn:E; [ | vm_compute in E; discriminate E ].
  exists w'. split; [ reflexivity | ].
  rewrite (set_leaves_other_keys (Demo.env false false) Demo.store (py "a.txt")
             (py "sub/b.txt") (VStr (py "new")) None None None stocked_world w' E).
  - vm_compute. reflexivity.
  - vm_compute. discriminate.
  - vm_compute. discriminate.
Defined.

(** [keep.txt] is not in the store directory; it is read from the
    working directory. *)
Lemma get_falls_back_to_key_path_witness :
  get (Demo.env false false) Demo.store (py "keep.txt") (Some true) None stocked_world
  = (Ok (VBytes (py "k")), stocked_world).
Proof.
  exact (get_falls_back_to_key_path (Demo.env false false) Demo.store 107%N (py "eep.txt")
           None stocked_world [py "home"; py "keep.txt"] (py "k")
           ltac:(vm_compute; reflexivity) ltac:(vm_compute; reflexivity)
           ltac:(vm_compute; reflexivity) eq_refl).
Defined.

(** The caller names the share ["docs"]; the file is asked from
    ["anthra"]. *)
Lemma getText_asks_share_anthra_witness :
  let conn := new_connection (Demo.env false false) (Some (py "alice")) (Some (py "secret")) in
  new_events Demo.world
    (getText (Demo.env false false) Demo.store (py "report.docx") None None
       (Some (py "alice")) (Some (py "secret")) (Some (py "docs"))
       (Some (py "10.0.0.7")) (Some (py "reports")) Demo.world).2
  = [EvConnect conn (Some (py "10.0.0.7")) 445;
     EvRetrieveFile conn (py "anthra") (py "reports/report.docx")].
Proof.
  exact (getText_asks_share_anthra (Demo.env false false) Demo.store (py "report.docx")
           None None (Some (py "alice")) (Some (py "secret")) (Some (py "docs"))
           (Some (py "10.0.0.7")) (Some (py "reports")) Demo.world eq_refl).
Defined.

(** A walk through a regular file and a walk through a missing
    directory raise different errors. *)
Example set_through_a_file :
  (set (Demo.env false false) Demo.store (py "a.txt/x") (VBytes []) None stocked_world).1
  = Raise (mkError "NotADirectoryError" (py "out/a.txt/x")).
Proof. vm_compute. reflexivity. Qed.

Example set_in_missing_directory :
  (set (Demo.env false false) Demo.store (py "missing/x") (VBytes []) None stocked_world).1
  = Raise (mkError "FileNotFoundError" (py "out/missing/x")).
Proof. vm_compute. reflexivity. Qed.

Example init_through_a_file :
  (__init__ (Some (py "out/a.txt/store")) None stocked_world).1
  = Raise (mkError "NotADirectoryError" (py "out/a.txt/store")).
Proof. vm_compute. reflexivity. Qed.

Example init_on_a_file :
  (__init__ (Some (py "out/a.txt")) None stocked_world).1
  = Raise (mkError "FileExistsError" (py "out/a.txt")).
Proof. vm_compute. reflexivity. Qed.

(** The key ["../secret"] makes [set] write beside the store
    directory. *)
Example set_parent_key_writes_outside_root :
  nodes (set (Demo.env false false) Demo.store (py "../secret") (VBytes (py "x")) None
           Demo.world).2 !! [py "home"; py "secret"]
  = Some (File (py "x")).
Proof. vm_compute. reflexivity. Qed.

End ExtraExamples.
